(** * Snowflake: a distributed unique ID generator (snowflake.go)

    A shallow embedding of the Go package [Snowflake] and the proofs of its
    documented properties.

    Conventions of the embedding.
    - A Go fixed-width integer is a [Z]; every operation that can leave the
      range of its Go type is followed by the wrap-around of that type
      ([to_int64], [to_uint64], [to_uint16]).
    - A Go function returning [(T, error)] returns a pair whose second
      component is [option error]; [None] is Go's [nil] error.
    - [time.Now] and [time.Sleep] act on a [World]: the number of clock
      readings taken so far and the log of the durations slept. The clock
      itself is an arbitrary function from the index of a reading to the
      instant it returns.
    - The mutex of the generator serialises the calls; the embedding is the
      sequential behaviour under the lock. *)

From Stdlib Require Import ZArith List Lia Bool.
From Stdlib.Strings Require Import Byte.
From stdpp Require Import base strings gmap.
Import ListNotations.

Local Open Scope Z_scope.

(** ** Machine integers *)

Definition to_uint64 (z : Z) : Z := z mod 2 ^ 64.
Definition to_uint16 (z : Z) : Z := z mod 2 ^ 16.
Definition to_int64 (z : Z) : Z := (z + 2 ^ 63) mod 2 ^ 64 - 2 ^ 63.

(** ** The parts of Go's [time] package the generator uses *)

(** An instant is its number of nanoseconds since the Unix epoch (UTC). *)
Definition instant : Type := Z.

(** [time.Time{}], January 1 of year 1, 00:00:00 UTC. *)
Definition zeroTime : instant := -62135596800 * 1000000000.

(** [time.Date(2014, 9, 1, 0, 0, 0, 0, time.UTC)]. *)
Definition date_2014_09_01 : instant := 1409529600 * 1000000000.

Definition IsZero (t : instant) : bool := t =? zeroTime.

(** [t.After(u)]. *)
Definition After (t u : instant) : bool := u <? t.

(** [t.UTC().UnixNano()]: an int64; instants out of its range wrap. *)
Definition UnixNano (t : instant) : Z := to_int64 t.

Record World : Type := mkWorld {
  reads : nat;
  slept : list Z
}.

(** ** The parts of Go's [net] package the generator uses *)

(** [net.IP] is a byte slice; the nil slice is the empty list. *)
Definition IP : Type := list byte.

(** [net.Addr] is an interface; [*net.IPNet] is the implementation that
    the generator looks for. *)
Inductive Addr : Type :=
  | IPNet (ip : IP) (mask : list byte)
  | OtherAddr (network : string) (text : string).

Definition octet (b : byte) : Z := Z.of_N (Byte.to_N b).

(** [ip[i]]; the generator indexes 4-byte addresses only, at 0 to 3. *)
Definition at_index (ip : IP) (i : nat) : Z := octet (nth i ip x00).

(** [ip.To4()]: the 4-byte form of an IPv4 address, [None] for Go's nil. *)
Definition To4 (ip : IP) : option IP :=
  match ip with
  | [_; _; _; _] => Some ip
  | [z0; z1; z2; z3; z4; z5; z6; z7; z8; z9; f0; f1; a; b; c; d] =>
      if forallb (fun x => octet x =? 0) [z0; z1; z2; z3; z4; z5; z6; z7; z8; z9]
         && (octet f0 =? 255) && (octet f1 =? 255)
      then Some [a; b; c; d]
      else None
  | _ => None
  end.

#[local] Instance byte_eq_dec : EqDecision byte := Byte.byte_eq_dec.

Definition IPv6loopback : IP :=
  [x00; x00; x00; x00; x00; x00; x00; x00; x00; x00; x00; x00; x00; x00; x00; x01].

(** [ip.IsLoopback()] *)
Definition IsLoopback (ip : IP) : bool :=
  match To4 ip with
  | Some ip4 => at_index ip4 0 =? 127
  | None => bool_decide (ip = IPv6loopback)
  end.

(** ** Constants, errors and records of the package *)

Definition BitLenTime : Z := 39.
Definition BitLenSequence : Z := 8.
Definition BitLenMachineID : Z := 63 - BitLenTime - BitLenSequence.

Definition SnowflakeTimeUnit : Z := 10000000.

(** Go's [error] values: the four sentinels of the package, and any other
    error value, which only a caller's function or the address enumerator can
    produce. *)
Inductive error : Type :=
  | ErrStartTimeAhead
  | ErrNoPrivateAddress
  | ErrOverTimeLimit
  | ErrInvalidMachineID
  | ErrOther (msg : string).

(** Modelled from the spec: the type [types.InterfaceAddrs] is declared in a
    package that is not part of the sources; it is "a function returning a
    list of interface addresses", here with Go's error result. *)
Definition InterfaceAddrs : Type := unit -> list Addr * option error.

(** The fields of a struct live in a module of the struct's name, as the
    package also has functions called [elapsedTime] and [MachineID]. *)
Module Settings.
Record t : Type := mk {
  StartTime : instant;
  MachineID : option (unit -> Z * option error);
  CheckMachineID : option (Z -> bool)
}.
End Settings.

Module Snowflake.
Record t : Type := mk {
  startTime : Z;
  elapsedTime : Z;
  sequence : Z;
  machineID : Z
}.
End Snowflake.

(** ** Time helpers *)

Section Clock.

Variable clock : nat -> instant.

(** [time.Now()] *)
Definition timeNow (w : World) : instant * World :=
  (clock (reads w), mkWorld (S (reads w)) (slept w)).

(** [time.Sleep(d)] *)
Definition timeSleep (d : Z) (w : World) : World :=
  mkWorld (reads w) (slept w ++ [d]).

Definition toSnowflakeTime (t : instant) : Z :=
  Z.quot (UnixNano t) SnowflakeTimeUnit.

Definition currentElapsedTime (startTime : Z) (w : World) : Z * World :=
  let '(now, w1) := timeNow w in
  (to_int64 (toSnowflakeTime now - startTime), w1).

Definition sleepTime (overtime : Z) (w : World) : Z * World :=
  let '(now, w1) := timeNow w in
  (to_int64 (to_int64 (overtime * SnowflakeTimeUnit)
             - Z.rem (UnixNano now) SnowflakeTimeUnit), w1).

(** ** Encoding *)

(** The expression returned by [toID], on three 64-bit operands. *)
Definition encode (time sequence machineID : Z) : Z :=
  Z.lor (Z.lor (to_uint64 (Z.shiftl time (BitLenSequence + BitLenMachineID)))
               (to_uint64 (Z.shiftl sequence BitLenMachineID)))
        machineID.

Definition toID (sf : Snowflake.t) : Z * option error :=
  if Z.shiftl 1 BitLenTime <=? Snowflake.elapsedTime sf
  then (0, Some ErrOverTimeLimit)
  else (encode (to_uint64 (Snowflake.elapsedTime sf))
               (Snowflake.sequence sf) (Snowflake.machineID sf), None).

(** ** Machine identifier from the private IP address *)

Definition isPrivateIPv4 (ip : option IP) : bool :=
  match ip with
  | None => false
  | Some ip =>
      (at_index ip 0 =? 10)
      || (at_index ip 0 =? 172)
         && ((16 <=? at_index ip 1) && (at_index ip 1 <? 32))
      || (at_index ip 0 =? 192) && (at_index ip 1 =? 168)
      || (at_index ip 0 =? 169) && (at_index ip 1 =? 254)
  end.

(** The [for _, a := range as] loop of [privateIPv4]. *)
Fixpoint privateIPv4_loop (addrs : list Addr) : option IP * option error :=
  match addrs with
  | [] => (None, Some ErrNoPrivateAddress)
  | a :: rest =>
      match a with
      | OtherAddr _ _ => privateIPv4_loop rest
      | IPNet ip _ =>
          if IsLoopback ip then privateIPv4_loop rest
          else
            let ip4 := To4 ip in
            if isPrivateIPv4 ip4 then (ip4, None) else privateIPv4_loop rest
      end
  end.

Definition privateIPv4 (interfaceAddrs : InterfaceAddrs)
  : option IP * option error :=
  let '(addrs, err) := interfaceAddrs tt in
  match err with
  | Some e => (None, Some e)
  | None => privateIPv4_loop addrs
  end.

Definition lower16BitPrivateIP (interfaceAddrs : InterfaceAddrs)
  : Z * option error :=
  let '(ip, err) := privateIPv4 interfaceAddrs in
  match err with
  | Some e => (0, Some e)
  | None =>
      let ip := default [] ip in
      (to_uint16 (to_uint16 (Z.shiftl (at_index ip 2) 8) + at_index ip 3), None)
  end.

(** ** Construction *)

Variable defaultInterfaceAddrs : InterfaceAddrs.

Definition New (st : Settings.t) (w : World)
  : (option Snowflake.t * option error) * World :=
  let '(now, w1) := timeNow w in
  if After (Settings.StartTime st) now then ((None, Some ErrStartTimeAhead), w1)
  else
    let sequence0 := to_uint16 (Z.shiftl 1 BitLenSequence - 1) in
    let startTime0 :=
      if IsZero (Settings.StartTime st) then toSnowflakeTime date_2014_09_01
      else toSnowflakeTime (Settings.StartTime st) in
    let '(machineID0, err) :=
      match Settings.MachineID st with
      | None => lower16BitPrivateIP defaultInterfaceAddrs
      | Some f => f tt
      end in
    match err with
    | Some e => ((None, Some e), w1)
    | None =>
        let rejected :=
          match Settings.CheckMachineID st with
          | Some check => negb (check machineID0)
          | None => false
          end in
        if rejected then ((None, Some ErrInvalidMachineID), w1)
        else ((Some (Snowflake.mk startTime0 0 sequence0 machineID0), None), w1)
    end.

Definition NewSnowflake (st : Settings.t) (w : World)
  : option Snowflake.t * World :=
  let '((sf, _), w1) := New st w in (sf, w1).

(** ** Generation *)

Definition NextID (sf : Snowflake.t) (w : World)
  : (Z * option error) * Snowflake.t * World :=
  let maskSequence := to_uint16 (Z.shiftl 1 BitLenSequence - 1) in
  let '(current, w1) := currentElapsedTime (Snowflake.startTime sf) w in
  let '(sf1, w2) :=
    if Snowflake.elapsedTime sf <? current then
      (Snowflake.mk (Snowflake.startTime sf) current 0 (Snowflake.machineID sf), w1)
    else
      let sequence1 :=
        Z.land (to_uint16 (Snowflake.sequence sf + 1)) maskSequence in
      if sequence1 =? 0 then
        let elapsedTime1 := to_int64 (Snowflake.elapsedTime sf + 1) in
        let overtime := to_int64 (elapsedTime1 - current) in
        let '(d, w') := sleepTime overtime w1 in
        (Snowflake.mk (Snowflake.startTime sf) elapsedTime1 sequence1
                      (Snowflake.machineID sf),
         timeSleep d w')
      else
        (Snowflake.mk (Snowflake.startTime sf) (Snowflake.elapsedTime sf)
                      sequence1 (Snowflake.machineID sf), w1) in
  (toID sf1, sf1, w2).

(** The generator and the world after [k] successive calls of [NextID]. *)
Fixpoint after_calls (k : nat) (sf : Snowflake.t) (w : World)
  : Snowflake.t * World :=
  match k with
  | O => (sf, w)
  | S k' =>
      let '(sf', w') := after_calls k' sf w in
      let '(_, sf'', w'') := NextID sf' w' in (sf'', w'')
  end.

Definition generator_after (k : nat) (sf : Snowflake.t) (w : World)
  : Snowflake.t :=
  fst (after_calls k sf w).

(** What the call number [k] (counted from 0) returns. *)
Definition nth_call (k : nat) (sf : Snowflake.t) (w : World)
  : Z * option error :=
  let '(sf', w') := after_calls k sf w in
  let '(r, _, _) := NextID sf' w' in r.

End Clock.

(** ** Decomposition *)

Definition elapsedTime (id : Z) : Z :=
  Z.shiftr id (BitLenSequence + BitLenMachineID).

(** [ElapsedTime]: a [time.Duration], an int64 of nanoseconds. *)
Definition ElapsedTime (id : Z) : Z :=
  to_int64 (to_uint64 (elapsedTime id * SnowflakeTimeUnit)).

Definition SequenceNumber (id : Z) : Z :=
  let maskSequence :=
    to_uint64 (Z.shiftl (Z.shiftl 1 BitLenSequence - 1) BitLenMachineID) in
  Z.shiftr (Z.land id maskSequence) BitLenMachineID.

Definition MachineID (id : Z) : Z :=
  let maskMachineID := to_uint64 (Z.shiftl 1 BitLenMachineID - 1) in
  Z.land id maskMachineID.

Definition Decompose (id : Z) : gmap string Z :=
  let msb := Z.shiftr id 63 in
  let time := elapsedTime id in
  let sequence := SequenceNumber id in
  let machineID := MachineID id in
  <["id" := id]> (<["msb" := msb]> (<["time" := time]>
    (<["sequence" := sequence]> (<["machine-id" := machineID]> ∅)))).

(** ** Quantities of the specification *)

(** No reading of the clock is further than [maxTick] ticks from the Unix
    epoch: [UnixNano] is an int64. *)
Definition maxTick : Z := 922337203685.

(** The supplier of machine identifiers returns a uint16. *)
Definition supplier_in_range (st : Settings.t) : Prop :=
  match Settings.MachineID st with
  | Some f => 0 <= fst (f tt) < 2 ^ 16
  | None => True
  end.

(** What holds of a generator made by [New] after at most [n] calls of
    [NextID]: its fields are in the ranges of their types, and the tick has
    gone up by at most one per call from a reading of the clock. *)
Definition generator_inv (n : Z) (sf : Snowflake.t) : Prop :=
  (- maxTick <= Snowflake.startTime sf <= maxTick)
  /\ (0 <= Snowflake.elapsedTime sf <= 2 * maxTick + n)
  /\ (0 <= Snowflake.sequence sf <= 255)
  /\ (0 <= Snowflake.machineID sf < 2 ^ 16).

(** The pair (tick, sequence) as one number, lexicographically ordered. *)
Definition order_key (sf : Snowflake.t) : Z :=
  Snowflake.elapsedTime sf * 256 + Snowflake.sequence sf.

(** The number of calls below which the tick cannot leave the int64 range. *)
Definition maxCalls : Z := 2 ^ 62.

(** What [New] takes the machine identifier from: the supplier of the
    settings or, without one, the private IP address. *)
Definition resolve_machineID (addrs : InterfaceAddrs) (st : Settings.t)
  : Z * option error :=
  match Settings.MachineID st with
  | None => lower16BitPrivateIP addrs
  | Some f => f tt
  end.

(** An IPv4 address as a 32-bit number, the first octet the most
    significant, and the address blocks of RFC1918 and RFC3927. *)
Definition ipv4 (a b c d : Z) : Z := a * 2 ^ 24 + b * 2 ^ 16 + c * 2 ^ 8 + d.

Definition ipv4_number (ip : IP) : Z :=
  ipv4 (at_index ip 0) (at_index ip 1) (at_index ip 2) (at_index ip 3).

(** [ip] is in the block [base/len]: its first [len] bits are those of
    [base]. *)
Definition in_block (ip : IP) (base len : Z) : bool :=
  Z.shiftr (ipv4_number ip) (32 - len) =? Z.shiftr base (32 - len).

Definition private_or_link_local (ip : IP) : bool :=
  in_block ip (ipv4 10 0 0 0) 8
  || in_block ip (ipv4 172 16 0 0) 12
  || in_block ip (ipv4 192 168 0 0) 16
  || in_block ip (ipv4 169 254 0 0) 16.

(** The 4-byte form of an enumerated address that is an IP network address,
    not a loopback address, IPv4, and private or link-local. *)
Definition qualifying (a : Addr) : option IP :=
  match a with
  | IPNet ip _ =>
      if IsLoopback ip then None
      else match To4 ip with
           | Some ip4 => if private_or_link_local ip4 then Some ip4 else None
           | None => None
           end
  | OtherAddr _ _ => None
  end.

Definition first_qualifying (addrs : list Addr) : option IP :=
  head (omap qualifying addrs).

(** The third and fourth octets, big-endian. *)
Definition lower16 (ip : IP) : Z := at_index ip 2 * 2 ^ 8 + at_index ip 3.

(** ** The scenario of the documentation

    The epoch is the default one, the clock stands still one tick after it,
    and the machine identifier is 5. *)

Definition fixed_clock (t : instant) : nat -> instant := fun _ => t.

Definition scenario_clock : nat -> instant :=
  fixed_clock (date_2014_09_01 + SnowflakeTimeUnit).

Definition scenario_settings : Settings.t :=
  Settings.mk zeroTime (Some (fun _ => (5, None))) None.

Definition no_addrs : InterfaceAddrs := fun _ => ([], None).

Definition fresh_world : World := mkWorld 0 [].

(** An enumeration of interface addresses: a Unix socket address, the two
    loopback addresses, a public address, then 192.168.1.2 (in its 16-byte
    form) and 10.0.0.1. *)
Definition scenario_addrs : InterfaceAddrs := fun _ =>
  ([OtherAddr "unix" "/run/sock";
    IPNet [x7f; x00; x00; x01] [xff; x00; x00; x00];
    IPNet IPv6loopback [];
    IPNet [x08; x08; x08; x08] [xff; xff; xff; x00];
    IPNet [x00; x00; x00; x00; x00; x00; x00; x00; x00; x00; xff; xff;
           xc0; xa8; x01; x02] [];
    IPNet [x0a; x00; x00; x01] [xff; x00; x00; x00]], None).

(** The settings that leave everything to the defaults. *)
Definition default_settings : Settings.t := Settings.mk zeroTime None None.

(** The generator that [New] makes in the scenario. *)
Definition scenario_generator : Snowflake.t := Snowflake.mk 140952960000 0 255 5.

(** A clock that stands still at the first instant whose tick, counted from
    the default epoch, does not fit in 39 bits (in the year 2188). *)
Definition overflow_clock : nat -> instant :=
  fixed_clock (date_2014_09_01 + 2 ^ 39 * SnowflakeTimeUnit).

(** * Proofs *)

(** ** Wrap-around of machine integers *)

Lemma to_int64_range z : - 2 ^ 63 <= to_int64 z < 2 ^ 63.
Proof. unfold to_int64. pose proof (Z.mod_pos_bound (z + 2 ^ 63) (2 ^ 64)). lia. Qed.

Lemma to_int64_small z : - 2 ^ 63 <= z < 2 ^ 63 -> to_int64 z = z.
Proof. intros H. unfold to_int64. rewrite Z.mod_small; lia. Qed.

Lemma to_uint64_small z : 0 <= z < 2 ^ 64 -> to_uint64 z = z.
Proof. intros H. unfold to_uint64. apply Z.mod_small; lia. Qed.

Lemma to_uint16_small z : 0 <= z < 2 ^ 16 -> to_uint16 z = z.
Proof. intros H. unfold to_uint16. apply Z.mod_small; lia. Qed.

Lemma land_shifted_low a b n :
  0 <= n -> 0 <= b < 2 ^ n -> Z.land (a * 2 ^ n) b = 0.
Proof.
  intros Hn Hb. apply Z.bits_inj'. intros i Hi.
  rewrite Z.land_spec, Z.bits_0.
  destruct (Z.lt_ge_cases i n) as [Hlt | Hge].
  - rewrite Z.mul_pow2_bits_low by lia. reflexivity.
  - rewrite andb_comm. destruct (Z.eq_dec b 0) as [-> | Hb0].
    + now rewrite Z.bits_0.
    + rewrite Z.bits_above_log2; [reflexivity | lia |].
      apply Z.lt_le_trans with n; [apply Z.log2_lt_pow2; lia | lia].
Qed.

Lemma lor_shifted_low a b n :
  0 <= n -> 0 <= b < 2 ^ n -> Z.lor (a * 2 ^ n) b = a * 2 ^ n + b.
Proof.
  intros Hn Hb. pose proof (Z.add_lor_land (a * 2 ^ n) b) as H.
  rewrite land_shifted_low in H by assumption. lia.
Qed.

(** ** Bounds on the clock *)

Lemma toSnowflakeTime_bound t : - maxTick <= toSnowflakeTime t <= maxTick.
Proof.
  unfold toSnowflakeTime, UnixNano, SnowflakeTimeUnit, maxTick.
  pose proof (to_int64_range t) as H. Z.to_euclidean_division_equations. lia.
Qed.

(** ** One call of [NextID] *)

Lemma sequence_next s :
  Z.land (to_uint16 (s + 1)) (to_uint16 (Z.shiftl 1 BitLenSequence - 1))
  = (s + 1) mod 256.
Proof.
  change (to_uint16 (Z.shiftl 1 BitLenSequence - 1)) with (Z.ones 8).
  rewrite Z.land_ones by lia. unfold to_uint16.
  change (2 ^ 16) with 65536. change (2 ^ 8) with 256.
  Z.to_euclidean_division_equations. lia.
Qed.

Lemma currentElapsedTime_exact clock start w :
  - maxTick <= start <= maxTick ->
  fst (currentElapsedTime clock start w)
  = toSnowflakeTime (clock (reads w)) - start.
Proof.
  intros Hs. unfold currentElapsedTime, timeNow. simpl.
  pose proof (toSnowflakeTime_bound (clock (reads w))) as Hb.
  apply to_int64_small. unfold maxTick in *. lia.
Qed.

(** The three ways a call changes the generator, when no integer wraps. *)
Lemma NextID_step clock sf w n r sf' w' :
  generator_inv n sf -> 0 <= n < maxCalls ->
  NextID clock sf w = (r, sf', w') ->
  generator_inv (n + 1) sf'
  /\ Snowflake.startTime sf' = Snowflake.startTime sf
  /\ Snowflake.machineID sf' = Snowflake.machineID sf
  /\ r = toID sf'
  /\ ((Snowflake.elapsedTime sf < Snowflake.elapsedTime sf'
       /\ Snowflake.sequence sf' = 0)
      \/ (Snowflake.elapsedTime sf' = Snowflake.elapsedTime sf
          /\ Snowflake.sequence sf' = Snowflake.sequence sf + 1)).
Proof.
  intros (Hst & Hel & Hsq & Hm) Hn.
  pose proof (currentElapsedTime_exact clock (Snowflake.startTime sf) w Hst) as Hc.
  pose proof (toSnowflakeTime_bound (clock (reads w))) as Hb.
  unfold NextID. destruct (currentElapsedTime clock _ w) as [cur w1]. simpl in Hc.
  rewrite sequence_next. unfold generator_inv, maxCalls, maxTick in *.
  destruct (Z.ltb_spec (Snowflake.elapsedTime sf) cur) as [Hlt | Hge].
  - intros [= <- <- <-]. simpl. repeat split; lia.
  - destruct (Z.eqb_spec ((Snowflake.sequence sf + 1) mod 256) 0) as [Hz | Hnz].
    + destruct (sleepTime clock _ w1) as [d w2].
      intros [= <- <- <-]. simpl. rewrite Hz.
      rewrite to_int64_small by lia.
      repeat split; lia.
    + intros [= <- <- <-]. simpl.
      assert (Snowflake.sequence sf < 255).
      { destruct (Z.eq_dec (Snowflake.sequence sf) 255) as [E | E]; [| lia].
        rewrite E in Hnz. now contradict Hnz. }
      rewrite Z.mod_small by lia.
      repeat split; lia.
Qed.

Lemma NextID_result clock sf w :
  fst (fst (NextID clock sf w)) = toID (snd (fst (NextID clock sf w))).
Proof.
  unfold NextID. destruct (currentElapsedTime clock _ w) as [cur w1].
  match goal with |- context [let '(_, _) := ?c in _] => destruct c as [sf1 w2] end.
  reflexivity.
Qed.

(** ** Encoding and decoding as arithmetic *)

Lemma encode_sum t s m :
  0 <= t -> t * 2 ^ 24 < 2 ^ 64 -> 0 <= s < 2 ^ 8 -> 0 <= m < 2 ^ 16 ->
  encode t s m = t * 2 ^ 24 + s * 2 ^ 16 + m.
Proof.
  intros Ht Ht' Hs Hm. unfold encode.
  change (BitLenSequence + BitLenMachineID) with 24.
  change BitLenMachineID with 16.
  rewrite !Z.shiftl_mul_pow2 by lia.
  rewrite !to_uint64_small by lia.
  rewrite (lor_shifted_low t (s * 2 ^ 16) 24) by lia.
  replace (t * 2 ^ 24 + s * 2 ^ 16) with ((t * 2 ^ 8 + s) * 2 ^ 16) by lia.
  apply lor_shifted_low; lia.
Qed.

Lemma elapsedTime_div id : elapsedTime id = id / 2 ^ 24.
Proof. unfold elapsedTime. now rewrite Z.shiftr_div_pow2. Qed.

Lemma SequenceNumber_div id : SequenceNumber id = (id / 2 ^ 16) mod 2 ^ 8.
Proof.
  unfold SequenceNumber.
  change (to_uint64 _) with (Z.shiftl (Z.ones 8) 16).
  change BitLenMachineID with 16.
  rewrite Z.shiftr_land, Z.shiftr_shiftl_l by lia.
  change (16 - 16) with 0. rewrite Z.shiftl_0_r, Z.land_ones by lia.
  now rewrite Z.shiftr_div_pow2.
Qed.

Lemma MachineID_mod id : MachineID id = id mod 2 ^ 16.
Proof.
  unfold MachineID. change (to_uint64 _) with (Z.ones 16).
  now rewrite Z.land_ones.
Qed.

Ltac pow2_consts :=
  change (2 ^ 8) with 256 in *; change (2 ^ 16) with 65536 in *;
  change (2 ^ 24) with 16777216 in *; change (2 ^ 39) with 549755813888 in *;
  change (2 ^ 62) with 4611686018427387904 in *;
  change (2 ^ 63) with 9223372036854775808 in *;
  change (2 ^ 64) with 18446744073709551616 in *.

Lemma decode_sum t s m :
  0 <= s < 2 ^ 8 -> 0 <= m < 2 ^ 16 ->
  elapsedTime (t * 2 ^ 24 + s * 2 ^ 16 + m) = t
  /\ SequenceNumber (t * 2 ^ 24 + s * 2 ^ 16 + m) = s
  /\ MachineID (t * 2 ^ 24 + s * 2 ^ 16 + m) = m.
Proof.
  intros Hs Hm. rewrite elapsedTime_div, SequenceNumber_div, MachineID_mod.
  pow2_consts. Z.to_euclidean_division_equations. lia.
Qed.

Lemma encode_decode v :
  0 <= v < 2 ^ 64 ->
  encode (elapsedTime v) (SequenceNumber v) (MachineID v) = v.
Proof.
  intros Hv. rewrite elapsedTime_div, SequenceNumber_div, MachineID_mod.
  rewrite encode_sum.
  - pow2_consts. Z.to_euclidean_division_equations. lia.
  - apply Z.div_pos; lia.
  - pow2_consts. Z.to_euclidean_division_equations. lia.
  - apply Z.mod_pos_bound. lia.
  - apply Z.mod_pos_bound. lia.
Qed.

(** The value of [toID] on a generator whose fields are in range. *)
Lemma toID_value n sf :
  generator_inv n sf ->
  toID sf =
    if 2 ^ 39 <=? Snowflake.elapsedTime sf then (0, Some ErrOverTimeLimit)
    else (order_key sf * 2 ^ 16 + Snowflake.machineID sf, None).
Proof.
  intros (_ & Hel & Hsq & Hm). unfold toID, order_key.
  change (Z.shiftl 1 BitLenTime) with (2 ^ 39).
  destruct (Z.leb_spec (2 ^ 39) (Snowflake.elapsedTime sf)) as [Hge | Hlt];
    [reflexivity |].
  rewrite to_uint64_small by (pow2_consts; lia).
  rewrite encode_sum by (pow2_consts; lia).
  f_equal. pow2_consts. lia.
Qed.

(** ** Construction *)

Lemma lower16BitPrivateIP_range addrs :
  0 <= fst (lower16BitPrivateIP addrs) < 2 ^ 16.
Proof.
  unfold lower16BitPrivateIP. destruct (privateIPv4 addrs) as [ip [e |]]; simpl.
  - lia.
  - unfold to_uint16. apply Z.mod_pos_bound. lia.
Qed.

(** [New] returns a generator only together with the nil error, and the
    generator starts at tick 0 with the sequence number at its maximum. *)
Lemma New_generator clock addrs st w sf e w1 :
  supplier_in_range st ->
  New clock addrs st w = ((Some sf, e), w1) ->
  e = None /\ generator_inv 0 sf
  /\ Snowflake.elapsedTime sf = 0 /\ Snowflake.sequence sf = 255.
Proof.
  intros Hr. unfold New, timeNow.
  destruct (After _ _); [discriminate |].
  assert (Hm : forall p,
    p = match Settings.MachineID st with
        | Some f => f tt
        | None => lower16BitPrivateIP addrs
        end -> 0 <= fst p < 2 ^ 16).
  { intros p ->. unfold supplier_in_range in Hr.
    destruct (Settings.MachineID st); [exact Hr | apply lower16BitPrivateIP_range]. }
  specialize (Hm _ eq_refl).
  destruct (match Settings.MachineID st with Some _ => _ | None => _ end)
    as [m [err |]]; [discriminate |].
  destruct (match Settings.CheckMachineID st with Some _ => _ | None => _ end);
    [discriminate |].
  intros [= <- <- <-].
  change (to_uint16 (Z.shiftl 1 BitLenSequence - 1)) with 255.
  unfold generator_inv.
  cbn [Snowflake.startTime Snowflake.elapsedTime Snowflake.sequence
       Snowflake.machineID fst] in *.
  assert (Hs : forall t, - maxTick <= toSnowflakeTime t <= maxTick)
    by apply toSnowflakeTime_bound.
  destruct (IsZero (Settings.StartTime st));
    repeat split; try reflexivity; try apply Hs; unfold maxTick; lia.
Qed.

(** ** Successive calls *)

Lemma after_calls_succ clock k sf w :
  after_calls clock (S k) sf w =
    let s := after_calls clock k sf w in
    let c := NextID clock (fst s) (snd s) in (snd (fst c), snd c).
Proof.
  simpl. destruct (after_calls clock k sf w) as [sf' w'].
  simpl. now destruct (NextID clock sf' w') as [[r sf''] w''].
Qed.

Lemma nth_call_toID clock k sf w :
  nth_call clock k sf w = toID (generator_after clock (S k) sf w).
Proof.
  unfold generator_after. rewrite after_calls_succ. unfold nth_call.
  destruct (after_calls clock k sf w) as [sf' w']. simpl.
  rewrite <- NextID_result. now destruct (NextID clock sf' w') as [[r sf''] w''].
Qed.

Section Run.

Variable clock : nat -> instant.
Variables (sf0 : Snowflake.t) (w0 : World).
Hypothesis sf0_inv : generator_inv 0 sf0.

Local Abbreviation gen k := (generator_after clock k sf0 w0).

Lemma gen_succ k :
  exists r w w', NextID clock (gen k) w = (r, gen (S k), w').
Proof.
  unfold generator_after. rewrite after_calls_succ.
  destruct (after_calls clock k sf0 w0) as [sf' w']. simpl.
  destruct (NextID clock sf' w') as [[r sf''] w''] eqn:E.
  exists r, w', w''. exact E.
Qed.

Lemma gen_inv k :
  Z.of_nat k <= maxCalls -> generator_inv (Z.of_nat k) (gen k).
Proof.
  induction k as [| k IH]; intros Hk.
  - exact sf0_inv.
  - destruct (gen_succ k) as (r & w & w' & E).
    eapply NextID_step in E; [| apply IH; lia | lia].
    replace (Z.of_nat (S k)) with (Z.of_nat k + 1) by lia. apply E.
Qed.

Lemma gen_step k :
  Z.of_nat k < maxCalls ->
  Snowflake.machineID (gen (S k)) = Snowflake.machineID (gen k)
  /\ ((Snowflake.elapsedTime (gen k) < Snowflake.elapsedTime (gen (S k))
       /\ Snowflake.sequence (gen (S k)) = 0)
      \/ (Snowflake.elapsedTime (gen (S k)) = Snowflake.elapsedTime (gen k)
          /\ Snowflake.sequence (gen (S k)) = Snowflake.sequence (gen k) + 1)).
Proof.
  intros Hk. destruct (gen_succ k) as (r & w & w' & E).
  eapply NextID_step in E; [| apply gen_inv; lia | lia].
  split; apply E.
Qed.

Lemma gen_machineID k :
  Z.of_nat k <= maxCalls ->
  Snowflake.machineID (gen k) = Snowflake.machineID sf0.
Proof.
  induction k as [| k IH]; intros Hk; [reflexivity |].
  destruct (gen_step k) as [-> _]; [lia |]. apply IH. lia.
Qed.

Lemma gen_key_step k :
  Z.of_nat k < maxCalls ->
  order_key (gen k) < order_key (gen (S k))
  /\ Snowflake.elapsedTime (gen k) <= Snowflake.elapsedTime (gen (S k)).
Proof.
  intros Hk. destruct (gen_step k Hk) as [_ H].
  pose proof (gen_inv k ltac:(lia)) as (_ & _ & Hs & _).
  pose proof (gen_inv (S k) ltac:(lia)) as (_ & _ & Hs' & _).
  unfold order_key. lia.
Qed.

Lemma gen_key_mono i j :
  (i < j)%nat -> Z.of_nat j <= maxCalls ->
  order_key (gen i) < order_key (gen j).
Proof.
  induction 1 as [| j Hij IH]; intros Hj.
  - apply gen_key_step. lia.
  - etransitivity; [apply IH; lia | apply gen_key_step; lia].
Qed.

Lemma gen_elapsed_mono i j :
  (i <= j)%nat -> Z.of_nat j <= maxCalls ->
  Snowflake.elapsedTime (gen i) <= Snowflake.elapsedTime (gen j).
Proof.
  induction 1 as [| j Hij IH]; intros Hj; [lia |].
  etransitivity; [apply IH; lia | apply gen_key_step; lia].
Qed.

(** What call number [k] returns, in terms of the generator after it. *)
Lemma nth_call_value k :
  Z.of_nat k < maxCalls ->
  nth_call clock k sf0 w0 =
    if 2 ^ 39 <=? Snowflake.elapsedTime (gen (S k))
    then (0, Some ErrOverTimeLimit)
    else (order_key (gen (S k)) * 2 ^ 16 + Snowflake.machineID sf0, None).
Proof.
  intros Hk. rewrite nth_call_toID.
  rewrite (toID_value (Z.of_nat (S k))) by (apply gen_inv; lia).
  now rewrite gen_machineID by lia.
Qed.

(** A returned ID decodes to the fields of the generator that made it. *)
Lemma nth_call_decode k a :
  Z.of_nat k < maxCalls ->
  nth_call clock k sf0 w0 = (a, None) ->
  a = order_key (gen (S k)) * 2 ^ 16 + Snowflake.machineID sf0
  /\ Snowflake.elapsedTime (gen (S k)) < 2 ^ 39
  /\ elapsedTime a = Snowflake.elapsedTime (gen (S k))
  /\ SequenceNumber a = Snowflake.sequence (gen (S k))
  /\ MachineID a = Snowflake.machineID sf0.
Proof.
  intros Hk. rewrite nth_call_value by assumption.
  destruct (Z.leb_spec (2 ^ 39) (Snowflake.elapsedTime (gen (S k))))
    as [Hge | Hlt]; [discriminate |].
  intros [= <-]. split; [reflexivity |]. split; [assumption |].
  pose proof (gen_inv (S k) ltac:(lia)) as (_ & _ & Hs & _).
  destruct sf0_inv as (_ & _ & _ & Hm).
  unfold order_key.
  replace ((Snowflake.elapsedTime (gen (S k)) * 256
            + Snowflake.sequence (gen (S k))) * 2 ^ 16)
    with (Snowflake.elapsedTime (gen (S k)) * 2 ^ 24
          + Snowflake.sequence (gen (S k)) * 2 ^ 16) by (pow2_consts; lia).
  apply decode_sum; pow2_consts; lia.
Qed.

(** Once the tick has left its 39 bits, every later call fails. *)
Lemma nth_call_fails_later i j :
  (i <= j)%nat -> Z.of_nat j < maxCalls ->
  snd (nth_call clock i sf0 w0) = Some ErrOverTimeLimit ->
  nth_call clock j sf0 w0 = (0, Some ErrOverTimeLimit).
Proof.
  intros Hij Hj. rewrite !nth_call_value by lia.
  pose proof (gen_elapsed_mono (S i) (S j) ltac:(lia) ltac:(lia)) as Hmono.
  destruct (Z.leb_spec (2 ^ 39) (Snowflake.elapsedTime (gen (S i))));
    [| discriminate].
  destruct (Z.leb_spec (2 ^ 39) (Snowflake.elapsedTime (gen (S j))));
    [reflexivity | lia].
Qed.

End Run.

Lemma scenario_New :
  New scenario_clock no_addrs scenario_settings fresh_world
  = ((Some scenario_generator, None), mkWorld 1 []).
Proof. reflexivity. Qed.

(** The bound [maxCalls] is there for the int64 tick alone: at the largest
    int64, [elapsedTime++] wraps and [toID] accepts the tick again. By
    [gen_inv] a generator made by [New] is not there within [maxCalls]
    calls. *)
Example tick_wraps_at_max_int64 :
  fst (fst (NextID (fixed_clock 0) (Snowflake.mk 0 (2 ^ 63 - 1) 255 5)
              fresh_world))
  = (5, None).
Proof. reflexivity. Qed.

(** * The properties of the specification *)

(** C1 (uniqueness). On a generator made by [New], whatever the clock reads,
    two distinct successful calls of [NextID] return different values (the
    later one the larger), as long as fewer than 2^62 calls are made, the
    number below which the int64 tick cannot wrap. *)
Theorem NextID_unique clock addrs st w sf w0 i j a b :
  supplier_in_range st ->
  New clock addrs st w = ((Some sf, None), w0) ->
  (i < j)%nat -> Z.of_nat j < maxCalls ->
  nth_call clock i sf w0 = (a, None) ->
  nth_call clock j sf w0 = (b, None) ->
  a <> b /\ a < b.
Proof.
  intros Hr HN Hij Hj Ha Hb.
  apply New_generator in HN as (_ & Hinv & _); [| assumption].
  apply nth_call_decode in Ha as (-> & _); [| assumption | lia].
  apply nth_call_decode in Hb as (-> & _); [| assumption | lia].
  pose proof (gen_key_mono clock sf w0 Hinv (S i) (S j) ltac:(lia) ltac:(lia)).
  pow2_consts. lia.
Qed.

Lemma NextID_unique_witness : 16777221 <> 16842757 /\ 16777221 < 16842757.
Proof.
  apply (NextID_unique scenario_clock no_addrs scenario_settings fresh_world
           scenario_generator (mkWorld 1 []) 0%nat 1%nat).
  - unfold supplier_in_range. simpl. lia.
  - reflexivity.
  - lia.
  - unfold maxCalls. simpl. lia.
  - reflexivity.
  - reflexivity.
Defined.

(** C2 (monotonic tick and sequence). On a generator made by [New], the
    (tick, sequence) pairs decoded from the IDs of successful calls increase
    strictly in lexicographic order; every call between two successful calls
    is successful; and from one call to the next either the tick increases
    and the sequence is 0, or the tick is the same and the sequence is one
    more. Stated for fewer than 2^62 calls. *)
Theorem NextID_monotonic clock addrs st w sf w0 i j a b :
  supplier_in_range st ->
  New clock addrs st w = ((Some sf, None), w0) ->
  (i < j)%nat -> Z.of_nat j < maxCalls ->
  nth_call clock i sf w0 = (a, None) ->
  nth_call clock j sf w0 = (b, None) ->
  (elapsedTime a < elapsedTime b
   \/ (elapsedTime a = elapsedTime b /\ SequenceNumber a < SequenceNumber b))
  /\ (forall m, (i <= m <= j)%nat -> snd (nth_call clock m sf w0) = None)
  /\ (j = S i ->
      (elapsedTime a < elapsedTime b /\ SequenceNumber b = 0)
      \/ (elapsedTime b = elapsedTime a
          /\ SequenceNumber b = SequenceNumber a + 1)).
Proof.
  intros Hr HN Hij Hj Ha Hb.
  apply New_generator in HN as (_ & Hinv & _); [| assumption].
  pose proof (nth_call_decode clock sf w0 Hinv i a ltac:(lia) Ha)
    as (_ & _ & -> & -> & _).
  pose proof (nth_call_decode clock sf w0 Hinv j b ltac:(lia) Hb)
    as (_ & Hlim & -> & -> & _).
  pose proof (gen_key_mono clock sf w0 Hinv (S i) (S j) ltac:(lia) ltac:(lia))
    as Hkey.
  pose proof (gen_inv clock sf w0 Hinv (S i) ltac:(lia)) as (_ & _ & Hsi & _).
  pose proof (gen_inv clock sf w0 Hinv (S j) ltac:(lia)) as (_ & _ & Hsj & _).
  unfold order_key in Hkey.
  split; [lia |]. split.
  - intros m Hm. rewrite nth_call_value by (assumption || lia).
    pose proof (gen_elapsed_mono clock sf w0 Hinv (S m) (S j)
                  ltac:(lia) ltac:(lia)).
    destruct (Z.leb_spec (2 ^ 39)
                (Snowflake.elapsedTime (generator_after clock (S m) sf w0)));
      [lia | reflexivity].
  - intros ->. destruct (gen_step clock sf w0 Hinv (S i) ltac:(lia)) as [_ H].
    lia.
Qed.

Lemma NextID_monotonic_witness :
  elapsedTime 16842757 = elapsedTime 16777221
  /\ SequenceNumber 16842757 = SequenceNumber 16777221 + 1.
Proof.
  pose proof (NextID_monotonic scenario_clock no_addrs scenario_settings
                fresh_world scenario_generator (mkWorld 1 []) 0%nat 1%nat
                16777221 16842757) as H.
  destruct H as (_ & _ & [[H _] | H]).
  - unfold supplier_in_range. simpl. lia.
  - reflexivity.
  - lia.
  - unfold maxCalls. simpl. lia.
  - reflexivity.
  - reflexivity.
  - reflexivity.
  - vm_compute in H. discriminate H.
  - exact H.
Defined.

(** C5 (overflow is terminal). A call of [NextID] returns [ErrOverTimeLimit]
    exactly when the tick of the generator, as the call leaves it, is at
    least 2^39; it returns no other error; and on a generator made by [New],
    once a call has returned [ErrOverTimeLimit] every later call returns it
    too, with the value 0, the tick never going down. Permanence is stated
    for fewer than 2^62 calls. *)
Theorem OverTimeLimit_permanent clock addrs st w sf w0 :
  supplier_in_range st ->
  New clock addrs st w = ((Some sf, None), w0) ->
  (forall g v,
     (snd (fst (fst (NextID clock g v))) = Some ErrOverTimeLimit
      <-> 2 ^ 39 <= Snowflake.elapsedTime (snd (fst (NextID clock g v))))
     /\ (snd (fst (fst (NextID clock g v))) = None
         <-> Snowflake.elapsedTime (snd (fst (NextID clock g v))) < 2 ^ 39))
  /\ (forall i j, (i <= j)%nat -> Z.of_nat j < maxCalls ->
        Snowflake.elapsedTime (generator_after clock i sf w0)
        <= Snowflake.elapsedTime (generator_after clock j sf w0))
  /\ (forall i j, (i <= j)%nat -> Z.of_nat j < maxCalls ->
        snd (nth_call clock i sf w0) = Some ErrOverTimeLimit ->
        nth_call clock j sf w0 = (0, Some ErrOverTimeLimit)).
Proof.
  intros Hr HN.
  apply New_generator in HN as (_ & Hinv & _); [| assumption].
  split; [| split].
  - intros g v. rewrite NextID_result. unfold toID.
    change (Z.shiftl 1 BitLenTime) with (2 ^ 39).
    destruct (Z.leb_spec (2 ^ 39)
                (Snowflake.elapsedTime (snd (fst (NextID clock g v)))));
      simpl; split; split; intros; (reflexivity || discriminate || lia).
  - intros i j Hij Hj. apply gen_elapsed_mono; (assumption || lia).
  - intros i j Hij Hj. now apply nth_call_fails_later.
Qed.

Lemma OverTimeLimit_permanent_witness :
  nth_call overflow_clock 1 scenario_generator (mkWorld 1 [])
  = (0, Some ErrOverTimeLimit).
Proof.
  destruct (OverTimeLimit_permanent overflow_clock no_addrs scenario_settings
              fresh_world scenario_generator (mkWorld 1 [])) as (_ & _ & H).
  - unfold supplier_in_range. simpl. lia.
  - reflexivity.
  - apply (H 0%nat 1%nat).
    + lia.
    + unfold maxCalls. simpl. lia.
    + reflexivity.
Defined.

(** C6 (guard bit). Every ID that a successful call of [NextID] returns, on a
    generator made by [New], is below 2^63: its bit 63 is 0, and so is the
    [msb] that [Decompose] reports; the tick of the generator is below 2^39
    and the three fields and the guard bit are 64 bits. Stated for fewer than
    2^62 calls. *)
Theorem NextID_guard_bit clock addrs st w sf w0 k a :
  supplier_in_range st ->
  New clock addrs st w = ((Some sf, None), w0) ->
  Z.of_nat k < maxCalls ->
  nth_call clock k sf w0 = (a, None) ->
  (0 <= a < 2 ^ 63 /\ Z.testbit a 63 = false /\ Z.shiftr a 63 = 0)
  /\ Snowflake.elapsedTime (generator_after clock (S k) sf w0) < 2 ^ BitLenTime
  /\ BitLenTime + BitLenSequence + BitLenMachineID + 1 = 64.
Proof.
  intros Hr HN Hk Ha. split; [| split; [| reflexivity]]; cycle 1.
  { apply New_generator in HN as (_ & Hinv & _); [| assumption].
    now apply (nth_call_decode clock sf w0 Hinv k a Hk Ha). }
  apply New_generator in HN as (_ & Hinv & _); [| assumption].
  pose proof (nth_call_decode clock sf w0 Hinv k a Hk Ha) as (-> & Hlim & _).
  pose proof (gen_inv clock sf w0 Hinv (S k) ltac:(unfold maxCalls in *; lia))
    as (_ & He & Hs & _).
  destruct Hinv as (_ & _ & _ & Hm).
  set (e := Snowflake.elapsedTime (generator_after clock (S k) sf w0)) in *.
  set (q := Snowflake.sequence (generator_after clock (S k) sf w0)) in *.
  assert (Hrange : 0 <= (e * 256 + q) * 2 ^ 16 + Snowflake.machineID sf < 2 ^ 63)
    by (pow2_consts; lia).
  unfold order_key. fold e q.
  assert (Hsh : Z.shiftr ((e * 256 + q) * 2 ^ 16 + Snowflake.machineID sf) 63 = 0).
  { rewrite Z.shiftr_div_pow2 by lia. apply Z.div_small. exact Hrange. }
  split; [exact Hrange |]. split; [| exact Hsh].
  rewrite <- (Z.add_0_l 63), <- Z.shiftr_spec, Hsh by lia. apply Z.bits_0.
Qed.

Lemma NextID_guard_bit_witness :
  0 <= 16777221 < 2 ^ 63 /\ Z.testbit 16777221 63 = false
  /\ Z.shiftr 16777221 63 = 0.
Proof.
  eapply proj1.
  apply (NextID_guard_bit scenario_clock no_addrs scenario_settings fresh_world
           scenario_generator (mkWorld 1 []) 0%nat).
  - unfold supplier_in_range. simpl. lia.
  - reflexivity.
  - unfold maxCalls. simpl. lia.
  - reflexivity.
Defined.

(** C3 (round trip), as stated, fails on an input with bit 63 set: the time
    that [Decompose] reports carries the guard bit, and encoding it gives the
    input back, not the input without its bit 63. *)
Lemma roundtrip_mask_counterexample :
  encode (elapsedTime (2 ^ 63)) (SequenceNumber (2 ^ 63)) (MachineID (2 ^ 63))
  <> Z.land (2 ^ 63) (Z.shiftl 1 63 - 1).
Proof. vm_compute. discriminate. Qed.

(** C3, amended. For every uint64 [v], [Decompose] has the five entries, each
    a uint64 computed by its own function; encoding its time, sequence and
    machine id gives [v] itself, which is [v & (1<<63 - 1)] exactly when the
    bit 63 of [v] is 0. *)
Theorem Decompose_roundtrip v :
  0 <= v < 2 ^ 64 ->
  (Decompose v !! "id" = Some v
   /\ Decompose v !! "msb" = Some (Z.shiftr v 63)
   /\ Decompose v !! "time" = Some (elapsedTime v)
   /\ Decompose v !! "sequence" = Some (SequenceNumber v)
   /\ Decompose v !! "machine-id" = Some (MachineID v))
  /\ (0 <= Z.shiftr v 63 <= 1 /\ 0 <= elapsedTime v < 2 ^ 40
      /\ 0 <= SequenceNumber v < 2 ^ 8 /\ 0 <= MachineID v < 2 ^ 16)
  /\ encode (elapsedTime v) (SequenceNumber v) (MachineID v) = v
  /\ (encode (elapsedTime v) (SequenceNumber v) (MachineID v)
      = Z.land v (Z.shiftl 1 63 - 1) <-> v < 2 ^ 63).
Proof.
  intros Hv. split; [| split; [| split]].
  - unfold Decompose.
    repeat split;
      repeat (rewrite lookup_insert_ne by discriminate);
      apply lookup_insert_eq.
  - rewrite elapsedTime_div, SequenceNumber_div, MachineID_mod.
    rewrite Z.shiftr_div_pow2 by lia.
    change (2 ^ 40) with 1099511627776. pow2_consts.
    Z.to_euclidean_division_equations. lia.
  - now apply encode_decode.
  - rewrite encode_decode by assumption.
    change (Z.shiftl 1 63 - 1) with (Z.ones 63). rewrite Z.land_ones by lia.
    pow2_consts. Z.to_euclidean_division_equations. lia.
Qed.

Lemma Decompose_roundtrip_witness :
  encode (elapsedTime 16842757) (SequenceNumber 16842757) (MachineID 16842757)
  = 16842757.
Proof.
  destruct (Decompose_roundtrip 16842757) as (_ & _ & H & _).
  - pow2_consts. lia.
  - exact H.
Defined.

(** C4 (bounded sleep), as stated, fails in the scenario of the
    documentation: with the clock standing still on a tick boundary, the call
    that exhausts the sequence numbers of the tick sleeps one whole time unit,
    and the call that exhausts those of the next tick sleeps two. *)
Lemma sleep_below_unit_counterexample :
  New scenario_clock no_addrs scenario_settings fresh_world
  = ((Some scenario_generator, None), mkWorld 1 [])
  /\ slept (snd (after_calls scenario_clock 513 scenario_generator
                   (mkWorld 1 [])))
     = [SnowflakeTimeUnit; 2 * SnowflakeTimeUnit]
  /\ ~ Forall (fun d => d < SnowflakeTimeUnit)
       (slept (snd (after_calls scenario_clock 513 scenario_generator
                      (mkWorld 1 [])))).
Proof.
  assert (E : slept (snd (after_calls scenario_clock 513 scenario_generator
                            (mkWorld 1 [])))
              = [SnowflakeTimeUnit; 2 * SnowflakeTimeUnit])
    by (vm_compute; reflexivity).
  split; [reflexivity |]. split; [exact E |]. rewrite E. intros H.
  apply Forall_cons_1 in H as [H _]. lia.
Qed.

(** C4, amended. In the branch of [NextID] where the sequence number wraps,
    [overtime] is at least 1 and the call sleeps
    [overtime * SnowflakeTimeUnit - now mod SnowflakeTimeUnit]: for a clock
    that is not before the Unix epoch, more than [overtime - 1] time units and
    at most [overtime]; so at most one time unit (not always less) when the
    tick of the clock is the tick of the generator. *)
Theorem sleep_at_most_overtime clock sf w current now overtime :
  current = fst (currentElapsedTime clock (Snowflake.startTime sf) w) ->
  now = UnixNano (clock (S (reads w))) ->
  overtime = Snowflake.elapsedTime sf + 1 - current ->
  - 2 ^ 63 <= Snowflake.elapsedTime sf < 2 ^ 63 - 1 ->
  current <= Snowflake.elapsedTime sf ->
  Snowflake.sequence sf = 255 ->
  overtime <= maxTick ->
  0 <= now ->
  exists d,
    slept (snd (NextID clock sf w)) = slept w ++ [d]
    /\ d = overtime * SnowflakeTimeUnit - now mod SnowflakeTimeUnit
    /\ 1 <= overtime
    /\ (overtime - 1) * SnowflakeTimeUnit < d <= overtime * SnowflakeTimeUnit
    /\ (overtime = 1 -> 0 < d <= SnowflakeTimeUnit).
Proof.
  intros Hc Hnow Ho He Hge Hs Hmax Hpos.
  exists (overtime * SnowflakeTimeUnit - now mod SnowflakeTimeUnit).
  assert (Hcr : - 2 ^ 63 <= current < 2 ^ 63).
  { rewrite Hc. unfold currentElapsedTime, timeNow. simpl. apply to_int64_range. }
  unfold NextID. rewrite sequence_next, Hs.
  destruct (currentElapsedTime clock (Snowflake.startTime sf) w) as [c w1] eqn:Ec.
  simpl in Hc. subst c.
  assert (Hw1 : w1 = mkWorld (S (reads w)) (slept w)).
  { unfold currentElapsedTime, timeNow in Ec. now inversion Ec. }
  destruct (Z.ltb_spec (Snowflake.elapsedTime sf) current) as [Hlt | _]; [lia |].
  change ((255 + 1) mod 256 =? 0) with true. cbv iota.
  unfold sleepTime, timeNow, timeSleep. subst w1. simpl.
  rewrite <- Hnow.
  rewrite (to_int64_small (Snowflake.elapsedTime sf + 1)) by lia.
  unfold maxTick, SnowflakeTimeUnit in *.
  rewrite (to_int64_small (Snowflake.elapsedTime sf + 1 - current))
    by (pow2_consts; lia).
  rewrite <- Ho.
  rewrite (to_int64_small (overtime * 10000000)) by (pow2_consts; lia).
  rewrite Z.rem_mod_nonneg by lia.
  pose proof (Z.mod_pos_bound now 10000000 ltac:(lia)) as Hm.
  rewrite to_int64_small by (pow2_consts; lia).
  repeat split; lia.
Qed.

Lemma sleep_at_most_overtime_witness :
  exists d,
    slept (snd (NextID scenario_clock
                  (Snowflake.mk 140952960000 1 255 5) (mkWorld 257 [])))
    = [] ++ [d]
    /\ d = 1 * SnowflakeTimeUnit - 1409529600010000000 mod SnowflakeTimeUnit
    /\ 1 <= 1
    /\ (1 - 1) * SnowflakeTimeUnit < d <= 1 * SnowflakeTimeUnit
    /\ (1 = 1 -> 0 < d <= SnowflakeTimeUnit).
Proof.
  apply (sleep_at_most_overtime scenario_clock
           (Snowflake.mk 140952960000 1 255 5) (mkWorld 257 [])
           1 1409529600010000000 1).
  - reflexivity.
  - reflexivity.
  - reflexivity.
  - simpl. lia.
  - simpl. lia.
  - reflexivity.
  - unfold maxTick. lia.
  - lia.
Defined.

(** ** Construction: the start time *)

Lemma New_resolve clock addrs st w :
  After (Settings.StartTime st) (clock (reads w)) = false ->
  fst (New clock addrs st w) =
    match snd (resolve_machineID addrs st) with
    | Some e => (None, Some e)
    | None =>
        if match Settings.CheckMachineID st with
           | Some check => negb (check (fst (resolve_machineID addrs st)))
           | None => false
           end
        then (None, Some ErrInvalidMachineID)
        else (Some (Snowflake.mk
                      (if IsZero (Settings.StartTime st)
                       then toSnowflakeTime date_2014_09_01
                       else toSnowflakeTime (Settings.StartTime st))
                      0 255 (fst (resolve_machineID addrs st))), None)
    end.
Proof.
  intros HA. unfold New, timeNow, resolve_machineID. rewrite HA.
  destruct (match Settings.MachineID st with Some _ => _ | None => _ end)
    as [m [e |]]; [reflexivity |]. simpl.
  destruct (match Settings.CheckMachineID st with Some _ => _ | None => _ end);
    reflexivity.
Qed.



(** ** Construction: the machine identifier *)

Lemma octet_range b : 0 <= octet b <= 255.
Proof. unfold octet. pose proof (Byte.to_N_bounded b). lia. Qed.

Lemma at_index_range ip i : 0 <= at_index ip i <= 255.
Proof. apply octet_range. Qed.

Lemma To4_length ip ip4 : To4 ip = Some ip4 -> length ip4 = 4%nat.
Proof.
  unfold To4.
  repeat (destruct ip as [| ? ip]; try discriminate);
    try (intros [= <-]; reflexivity).
  destruct (_ && _); [intros [= <-]; reflexivity | discriminate].
Qed.

Lemma ipv4_prefix8 a b c d :
  0 <= b <= 255 -> 0 <= c <= 255 -> 0 <= d <= 255 ->
  Z.shiftr (ipv4 a b c d) (32 - 8) = a.
Proof.
  intros Hb Hc Hd.
  unfold ipv4. rewrite Z.shiftr_div_pow2 by lia. cbn -[Z.div Z.mul Z.add].
  Z.to_euclidean_division_equations. lia.
Qed.

Lemma ipv4_prefix16 a b c d :
  0 <= c <= 255 -> 0 <= d <= 255 ->
  Z.shiftr (ipv4 a b c d) (32 - 16) = a * 256 + b.
Proof.
  intros Hc Hd.
  unfold ipv4. rewrite Z.shiftr_div_pow2 by lia. cbn -[Z.div Z.mul Z.add].
  Z.to_euclidean_division_equations. lia.
Qed.

Lemma ipv4_prefix12 a b c d :
  0 <= b <= 255 -> 0 <= c <= 255 -> 0 <= d <= 255 ->
  Z.shiftr (ipv4 a b c d) (32 - 12) = a * 16 + b / 16.
Proof.
  intros Hb Hc Hd.
  unfold ipv4. rewrite Z.shiftr_div_pow2 by lia. cbn -[Z.div Z.mul Z.add].
  Z.to_euclidean_division_equations. lia.
Qed.

Lemma block_172_16 a b :
  0 <= b <= 255 ->
  (a * 16 + b / 16 =? 172 * 16 + 1) = (a =? 172) && ((16 <=? b) && (b <? 32)).
Proof.
  intros Hb. apply eq_true_iff_eq.
  rewrite !andb_true_iff, !Z.eqb_eq, Z.leb_le, Z.ltb_lt.
  Z.to_euclidean_division_equations. lia.
Qed.

Lemma block_16 a b x y :
  0 <= b <= 255 -> 0 <= y <= 255 ->
  (a * 256 + b =? x * 256 + y) = (a =? x) && (b =? y).
Proof.
  intros Hb Hy. apply eq_true_iff_eq. rewrite andb_true_iff, !Z.eqb_eq. lia.
Qed.

(** The comparisons of octets in [isPrivateIPv4] are membership of the four
    address blocks. *)
Lemma isPrivateIPv4_blocks ip4 :
  isPrivateIPv4 (Some ip4) = private_or_link_local ip4.
Proof.
  unfold isPrivateIPv4, private_or_link_local, in_block, ipv4_number.
  pose proof (at_index_range ip4 0) as H0. pose proof (at_index_range ip4 1) as H1.
  pose proof (at_index_range ip4 2) as H2. pose proof (at_index_range ip4 3) as H3.
  rewrite ipv4_prefix8, ipv4_prefix12, !ipv4_prefix16 by assumption.
  change (Z.shiftr (ipv4 10 0 0 0) (32 - 8)) with 10.
  change (Z.shiftr (ipv4 172 16 0 0) (32 - 12)) with (172 * 16 + 1).
  change (Z.shiftr (ipv4 192 168 0 0) (32 - 16)) with (192 * 256 + 168).
  change (Z.shiftr (ipv4 169 254 0 0) (32 - 16)) with (169 * 256 + 254).
  rewrite block_172_16 by assumption.
  rewrite !block_16 by (assumption || lia).
  reflexivity.
Qed.

Lemma privateIPv4_loop_first addrs :
  privateIPv4_loop addrs =
    match first_qualifying addrs with
    | Some ip4 => (Some ip4, None)
    | None => (None, Some ErrNoPrivateAddress)
    end.
Proof.
  unfold first_qualifying.
  induction addrs as [| [ip mask | network text] rest IH];
    cbn -[IsLoopback To4 private_or_link_local isPrivateIPv4].
  - reflexivity.
  - destruct (IsLoopback ip); [exact IH |].
    destruct (To4 ip) as [ip4 |] eqn:E4.
    + rewrite isPrivateIPv4_blocks.
      destruct (private_or_link_local ip4); [reflexivity | exact IH].
    + exact IH.
  - exact IH.
Qed.

Lemma first_qualifying_length addrs ip4 :
  first_qualifying addrs = Some ip4 -> length ip4 = 4%nat.
Proof.
  unfold first_qualifying.
  induction addrs as [| [ip mask | network text] rest IH];
    cbn -[IsLoopback To4 private_or_link_local];
    [discriminate | | exact IH].
  destruct (IsLoopback ip); [exact IH |].
  destruct (To4 ip) as [ip' |] eqn:E4; [| exact IH].
  destruct (private_or_link_local ip'); [| exact IH].
  intros [= <-]. eapply To4_length, E4.
Qed.

Lemma lower16BitPrivateIP_first (addrs : InterfaceAddrs) :
  lower16BitPrivateIP addrs =
    match snd (addrs tt) with
    | Some e => (0, Some e)
    | None =>
        match first_qualifying (fst (addrs tt)) with
        | Some ip4 => (lower16 ip4, None)
        | None => (0, Some ErrNoPrivateAddress)
        end
    end.
Proof.
  unfold lower16BitPrivateIP, privateIPv4.
  destruct (addrs tt) as [l [e |]]; [reflexivity |]. simpl.
  rewrite privateIPv4_loop_first.
  destruct (first_qualifying l) as [ip4 |]; [| reflexivity]. simpl.
  f_equal. unfold lower16.
  pose proof (at_index_range ip4 2). pose proof (at_index_range ip4 3).
  rewrite Z.shiftl_mul_pow2 by lia.
  rewrite (to_uint16_small (at_index ip4 2 * 2 ^ 8)) by (pow2_consts; lia).
  rewrite to_uint16_small by (pow2_consts; lia). reflexivity.
Qed.

(** C8 (default machine identifier). Past the check of the start time, [New]
    without a supplier passes on the error of the address enumerator; else it
    takes the first enumerated address that is an IP network address, not a
    loopback address, IPv4, and in 10/8, 172.16/12, 192.168/16 or 169.254/16,
    and the machine identifier is its third and fourth octets, big-endian
    (the generator is returned unless [CheckMachineID] rejects the
    identifier); without such an address it fails with
    [ErrNoPrivateAddress]. An error of a supplied [MachineID] function is
    passed on as it is. *)
Theorem New_machineID clock (addrs : InterfaceAddrs) st w :
  After (Settings.StartTime st) (clock (reads w)) = false ->
  (Settings.MachineID st = None ->
   match snd (addrs tt) with
   | Some e => fst (New clock addrs st w) = (None, Some e)
   | None =>
       match first_qualifying (fst (addrs tt)) with
       | None => fst (New clock addrs st w) = (None, Some ErrNoPrivateAddress)
       | Some ip4 =>
           length ip4 = 4%nat
           /\ lower16BitPrivateIP addrs = (lower16 ip4, None)
           /\ match Settings.CheckMachineID st with
              | Some check =>
                  if check (lower16 ip4)
                  then exists sf, fst (New clock addrs st w) = (Some sf, None)
                                  /\ Snowflake.machineID sf = lower16 ip4
                  else fst (New clock addrs st w) = (None, Some ErrInvalidMachineID)
              | None =>
                  exists sf, fst (New clock addrs st w) = (Some sf, None)
                             /\ Snowflake.machineID sf = lower16 ip4
              end
       end
   end)
  /\ (forall f v e, Settings.MachineID st = Some f -> f tt = (v, Some e) ->
        fst (New clock addrs st w) = (None, Some e)).
Proof.
  intros HA. rewrite (New_resolve clock addrs st w HA).
  unfold resolve_machineID. split.
  - intros ->. rewrite lower16BitPrivateIP_first.
    destruct (snd (addrs tt)) as [e |]; [reflexivity |].
    destruct (first_qualifying (fst (addrs tt))) as [ip4 |] eqn:Ef;
      [| reflexivity].
    split; [eapply first_qualifying_length, Ef |]. split; [reflexivity |].
    cbn [fst snd].
    destruct (Settings.CheckMachineID st) as [check |].
    + destruct (check (lower16 ip4)); cbn [negb]; [| reflexivity].
      eexists. split; reflexivity.
    + eexists. split; reflexivity.
  - intros f v e -> ->. reflexivity.
Qed.

Lemma New_machineID_witness :
  exists sf,
    fst (New scenario_clock scenario_addrs default_settings fresh_world)
    = (Some sf, None)
    /\ Snowflake.machineID sf = 258.
Proof.
  destruct (New_machineID scenario_clock scenario_addrs default_settings
              fresh_world) as [H _].
  - reflexivity.
  - specialize (H eq_refl).
    change (snd (scenario_addrs tt)) with (@None error) in H.
    change (first_qualifying (fst (scenario_addrs tt)))
      with (Some [xc0; xa8; x01; x02]) in H.
    cbv beta iota in H. destruct H as (_ & _ & H). exact H.
Defined.

(** C9 (convenience constructor). [NewSnowflake] returns the generator that
    [New] returns when [New] returns the nil error, and nil whenever [New]
    returns an error, which it drops; both leave the same world. *)
Theorem NewSnowflake_New clock addrs st w :
  snd (NewSnowflake clock addrs st w) = snd (New clock addrs st w)
  /\ match snd (fst (New clock addrs st w)) with
     | None =>
         exists sf, fst (fst (New clock addrs st w)) = Some sf
                    /\ fst (NewSnowflake clock addrs st w) = Some sf
     | Some _ =>
         fst (fst (New clock addrs st w)) = None
         /\ fst (NewSnowflake clock addrs st w) = None
     end.
Proof.
  unfold NewSnowflake.
  destruct (Z.lt_ge_cases (clock (reads w)) (Settings.StartTime st)) as [Hlt | Hge].
  - assert (E : New clock addrs st w
                = ((None, Some ErrStartTimeAhead), mkWorld (S (reads w)) (slept w))).
    { unfold New, timeNow, After.
      destruct (Z.ltb_spec (clock (reads w)) (Settings.StartTime st));
        [reflexivity | lia]. }
    rewrite E. simpl. auto.
  - assert (HA : After (Settings.StartTime st) (clock (reads w)) = false).
    { unfold After.
      destruct (Z.ltb_spec (clock (reads w)) (Settings.StartTime st));
        [lia | reflexivity]. }
    pose proof (New_resolve clock addrs st w HA) as E.
    destruct (New clock addrs st w) as [[sf e] w1]. simpl in E |- *.
    split; [reflexivity |].
    destruct (snd (resolve_machineID addrs st)) as [e' |].
    + injection E as -> ->. auto.
    + destruct (match Settings.CheckMachineID st with Some _ => _ | None => _ end);
        injection E as -> ->; eauto.
Qed.

(** C10 (a failing call still changes the generator). A call of [NextID]
    that returns an error returns [ErrOverTimeLimit] with the value 0, and
    leaves the generator with a tick or a sequence number that differs from
    the one it found; when the sequence number wraps, the call has slept
    before failing. *)
Theorem NextID_failure_mutates clock sf w r sf' w' e :
  NextID clock sf w = (r, sf', w') ->
  snd r = Some e ->
  e = ErrOverTimeLimit /\ fst r = 0
  /\ 2 ^ 39 <= Snowflake.elapsedTime sf'
  /\ (Snowflake.elapsedTime sf', Snowflake.sequence sf')
     <> (Snowflake.elapsedTime sf, Snowflake.sequence sf)
  /\ (Snowflake.elapsedTime sf' = Snowflake.elapsedTime sf ->
      Snowflake.sequence sf' = (Snowflake.sequence sf + 1) mod 256)
  /\ (Snowflake.sequence sf = 255 ->
      fst (currentElapsedTime clock (Snowflake.startTime sf) w)
      <= Snowflake.elapsedTime sf ->
      exists d, slept w' = slept w ++ [d]).
Proof.
  intros HN He.
  pose proof (NextID_result clock sf w) as Hr. rewrite HN in Hr. simpl in Hr.
  assert (Hfail : e = ErrOverTimeLimit /\ fst r = 0
                  /\ 2 ^ 39 <= Snowflake.elapsedTime sf').
  { rewrite Hr in He |- *. unfold toID in *.
    change (Z.shiftl 1 BitLenTime) with (2 ^ 39) in *.
    destruct (Z.leb_spec (2 ^ 39) (Snowflake.elapsedTime sf'));
      simpl in *; [| discriminate].
    injection He as <-. auto. }
  destruct Hfail as (He' & Hv & Hlim).
  split; [assumption |]. split; [assumption |]. split; [assumption |].
  clear He He' Hv Hlim Hr. revert HN. unfold NextID.
  destruct (currentElapsedTime clock (Snowflake.startTime sf) w) as [cur w1] eqn:Ec.
  rewrite sequence_next. cbn [fst].
  destruct (Z.ltb_spec (Snowflake.elapsedTime sf) cur) as [Hlt | Hge].
  - intros [= <- <- <-]. cbn [Snowflake.elapsedTime Snowflake.sequence].
    split; [intros [= H1 H2]; lia |]. split; intros; lia.
  - destruct (Z.eqb_spec ((Snowflake.sequence sf + 1) mod 256) 0) as [Hz | Hnz].
    + destruct (sleepTime clock _ w1) as [d w2] eqn:Es.
      intros [= <- <- <-]. cbn [Snowflake.elapsedTime Snowflake.sequence].
      pose proof (to_int64_range (Snowflake.elapsedTime sf + 1)) as Hrange.
      assert (Hne : to_int64 (Snowflake.elapsedTime sf + 1)
                    <> Snowflake.elapsedTime sf).
      { unfold to_int64. pow2_consts. Z.to_euclidean_division_equations. lia. }
      split; [intros [= H1 H2]; contradiction |].
      split; [intros; contradiction |].
      intros _ _. exists d. unfold timeSleep. simpl.
      unfold sleepTime, timeNow in Es. injection Es as _ <-.
      unfold currentElapsedTime, timeNow in Ec. injection Ec as _ <-.
      reflexivity.
    + intros [= <- <- <-]. cbn [Snowflake.elapsedTime Snowflake.sequence].
      split.
      * intros [= H]. revert H Hnz.
        Z.to_euclidean_division_equations. lia.
      * split; [reflexivity |]. intros Hs. rewrite Hs in Hnz.
        now contradict Hnz.
Qed.

Lemma NextID_failure_mutates_witness :
  fst (fst (fst (NextID overflow_clock scenario_generator (mkWorld 1 [])))) = 0
  /\ (Snowflake.elapsedTime
        (snd (fst (NextID overflow_clock scenario_generator (mkWorld 1 [])))),
      Snowflake.sequence
        (snd (fst (NextID overflow_clock scenario_generator (mkWorld 1 [])))))
     <> (0, 255).
Proof.
  destruct (NextID_failure_mutates overflow_clock scenario_generator
              (mkWorld 1 [])
              (fst (fst (NextID overflow_clock scenario_generator (mkWorld 1 []))))
              (snd (fst (NextID overflow_clock scenario_generator (mkWorld 1 []))))
              (snd (NextID overflow_clock scenario_generator (mkWorld 1 [])))
              ErrOverTimeLimit)
    as (_ & H0 & _ & Hne & _).
  - reflexivity.
  - reflexivity.
  - split; [exact H0 | exact Hne].
Defined.

(** * Further properties of the code *)

(** ** What the IDs of a generator carry *)

Lemma New_passed_check clock addrs st w sf e w1 :
  New clock addrs st w = ((Some sf, e), w1) ->
  After (Settings.StartTime st) (clock (reads w)) = false.
Proof.
  unfold New, timeNow.
  destruct (After (Settings.StartTime st) (clock (reads w)));
    [discriminate | reflexivity].
Qed.

(** X1. Every ID of a generator made by [New] decodes to the machine
    identifier that [New] resolved, to the tick and to the sequence number of
    the generator that made it. *)
Theorem NextID_carries_machineID clock addrs st w sf w0 k a :
  supplier_in_range st ->
  New clock addrs st w = ((Some sf, None), w0) ->
  Z.of_nat k < maxCalls ->
  nth_call clock k sf w0 = (a, None) ->
  Snowflake.machineID sf = fst (resolve_machineID addrs st)
  /\ MachineID a = Snowflake.machineID sf
  /\ Decompose a !! "machine-id" = Some (Snowflake.machineID sf)
  /\ elapsedTime a = Snowflake.elapsedTime (generator_after clock (S k) sf w0)
  /\ SequenceNumber a = Snowflake.sequence (generator_after clock (S k) sf w0).
Proof.
  intros Hr HN Hk Ha.
  assert (Hm : Snowflake.machineID sf = fst (resolve_machineID addrs st)).
  { pose proof (New_resolve clock addrs st w (New_passed_check _ _ _ _ _ _ _ HN))
      as E.
    rewrite HN in E. cbn [fst] in E.
    destruct (snd (resolve_machineID addrs st)); [discriminate |].
    destruct (match Settings.CheckMachineID st with Some _ => _ | None => _ end);
      [discriminate |].
    now injection E as ->. }
  apply New_generator in HN as (_ & Hinv & _); [| assumption].
  pose proof (nth_call_decode clock sf w0 Hinv k a Hk Ha)
    as (_ & _ & He & Hs & Hmid).
  repeat split; try assumption.
  unfold Decompose. repeat (rewrite lookup_insert_ne by discriminate).
  rewrite lookup_insert_eq. now rewrite Hmid.
Qed.

Lemma NextID_carries_machineID_witness :
  MachineID 16777221 = 5 /\ elapsedTime 16777221 = 1
  /\ SequenceNumber 16777221 = 0.
Proof.
  destruct (NextID_carries_machineID scenario_clock no_addrs scenario_settings
              fresh_world scenario_generator (mkWorld 1 []) 0%nat 16777221)
    as (_ & Hm & _ & He & Hs).
  - unfold supplier_in_range. simpl. lia.
  - reflexivity.
  - unfold maxCalls. simpl. lia.
  - reflexivity.
  - split; [exact Hm | split; [exact He | exact Hs]].
Defined.

(** X2. On a generator whose tick is below 2^39, whose sequence number is
    below 2^8 and whose machine identifier is below 2^16, [toID] returns an ID
    and no error, and the three decoders give the three fields back; the
    guard bit of the ID is 0. *)
Theorem toID_decode sf :
  0 <= Snowflake.elapsedTime sf < 2 ^ 39 ->
  0 <= Snowflake.sequence sf < 2 ^ 8 ->
  0 <= Snowflake.machineID sf < 2 ^ 16 ->
  snd (toID sf) = None
  /\ elapsedTime (fst (toID sf)) = Snowflake.elapsedTime sf
  /\ SequenceNumber (fst (toID sf)) = Snowflake.sequence sf
  /\ MachineID (fst (toID sf)) = Snowflake.machineID sf
  /\ Z.shiftr (fst (toID sf)) 63 = 0.
Proof.
  intros He Hs Hm. unfold toID.
  change (Z.shiftl 1 BitLenTime) with (2 ^ 39).
  destruct (Z.leb_spec (2 ^ 39) (Snowflake.elapsedTime sf)) as [Hge | _];
    [lia |]. cbn [fst snd].
  rewrite to_uint64_small by (pow2_consts; lia).
  rewrite encode_sum by (pow2_consts; lia).
  destruct (decode_sum (Snowflake.elapsedTime sf) (Snowflake.sequence sf)
              (Snowflake.machineID sf) Hs Hm) as (H1 & H2 & H3).
  repeat split; try assumption.
  rewrite Z.shiftr_div_pow2 by lia. apply Z.div_small. pow2_consts. lia.
Qed.

Lemma toID_decode_witness :
  snd (toID (Snowflake.mk 0 77 200 4660)) = None
  /\ elapsedTime (fst (toID (Snowflake.mk 0 77 200 4660))) = 77
  /\ SequenceNumber (fst (toID (Snowflake.mk 0 77 200 4660))) = 200
  /\ MachineID (fst (toID (Snowflake.mk 0 77 200 4660))) = 4660
  /\ Z.shiftr (fst (toID (Snowflake.mk 0 77 200 4660))) 63 = 0.
Proof.
  apply (toID_decode (Snowflake.mk 0 77 200 4660)); simpl; lia.
Defined.

(** X3. Two generators made by [New] with different machine identifiers
    never return the same ID, whatever their clocks and start times. *)
Theorem distinct_machines_distinct_IDs
    clock1 addrs1 st1 w1 sf1 v1 i a clock2 addrs2 st2 w2 sf2 v2 j b :
  supplier_in_range st1 -> supplier_in_range st2 ->
  New clock1 addrs1 st1 w1 = ((Some sf1, None), v1) ->
  New clock2 addrs2 st2 w2 = ((Some sf2, None), v2) ->
  Snowflake.machineID sf1 <> Snowflake.machineID sf2 ->
  Z.of_nat i < maxCalls -> Z.of_nat j < maxCalls ->
  nth_call clock1 i sf1 v1 = (a, None) ->
  nth_call clock2 j sf2 v2 = (b, None) ->
  a <> b.
Proof.
  intros Hr1 Hr2 HN1 HN2 Hne Hi Hj Ha Hb Hab.
  apply New_generator in HN1 as (_ & Hinv1 & _); [| assumption].
  apply New_generator in HN2 as (_ & Hinv2 & _); [| assumption].
  pose proof (nth_call_decode clock1 sf1 v1 Hinv1 i a Hi Ha) as (_ & _ & _ & _ & H1).
  pose proof (nth_call_decode clock2 sf2 v2 Hinv2 j b Hj Hb) as (_ & _ & _ & _ & H2).
  congruence.
Qed.

Lemma distinct_machines_distinct_IDs_witness : 16777221 <> 16777222.
Proof.
  apply (distinct_machines_distinct_IDs
           scenario_clock no_addrs scenario_settings fresh_world
           scenario_generator (mkWorld 1 []) 0%nat 16777221
           scenario_clock no_addrs
           (Settings.mk zeroTime (Some (fun _ => (6, None))) None) fresh_world
           (Snowflake.mk 140952960000 0 255 6) (mkWorld 1 []) 0%nat 16777222).
  - unfold supplier_in_range. simpl. lia.
  - unfold supplier_in_range. simpl. lia.
  - reflexivity.
  - reflexivity.
  - simpl. lia.
  - unfold maxCalls. simpl. lia.
  - unfold maxCalls. simpl. lia.
  - reflexivity.
  - reflexivity.
Defined.

(** ** What one call does to the generator and to the world *)

Lemma NextID_fields clock sf w :
  Snowflake.startTime (snd (fst (NextID clock sf w))) = Snowflake.startTime sf
  /\ Snowflake.machineID (snd (fst (NextID clock sf w))) = Snowflake.machineID sf
  /\ 0 <= Snowflake.sequence (snd (fst (NextID clock sf w))) <= 255
  /\ (snd (fst (fst (NextID clock sf w))) = None
      \/ fst (fst (NextID clock sf w)) = (0, Some ErrOverTimeLimit)).
Proof.
  assert (Hres : snd (fst (fst (NextID clock sf w))) = None
                 \/ fst (fst (NextID clock sf w)) = (0, Some ErrOverTimeLimit)).
  { rewrite NextID_result. unfold toID.
    destruct (_ <=? _); [right | left]; reflexivity. }
  revert Hres. unfold NextID.
  destruct (currentElapsedTime clock (Snowflake.startTime sf) w) as [cur w1].
  rewrite sequence_next.
  pose proof (Z.mod_pos_bound (Snowflake.sequence sf + 1) 256 ltac:(lia)) as Hm.
  destruct (Snowflake.elapsedTime sf <? cur).
  - cbn [fst snd Snowflake.startTime Snowflake.machineID Snowflake.sequence].
    intros Hres. repeat split; try assumption; lia.
  - destruct ((Snowflake.sequence sf + 1) mod 256 =? 0).
    + destruct (sleepTime clock _ w1) as [d w2].
      cbn [fst snd Snowflake.startTime Snowflake.machineID Snowflake.sequence].
      intros Hres. repeat split; try assumption; lia.
    + cbn [fst snd Snowflake.startTime Snowflake.machineID Snowflake.sequence].
      intros Hres. repeat split; try assumption; lia.
Qed.

(** X4. Whatever the generator and the clock, [NextID] leaves the start time
    and the machine identifier as they are and the sequence number in
    0..255; it returns an ID and no error, or 0 and [ErrOverTimeLimit]. *)
Theorem NextID_keeps_fields clock sf w :
  Snowflake.startTime (snd (fst (NextID clock sf w))) = Snowflake.startTime sf
  /\ Snowflake.machineID (snd (fst (NextID clock sf w))) = Snowflake.machineID sf
  /\ 0 <= Snowflake.sequence (snd (fst (NextID clock sf w))) <= 255
  /\ (snd (fst (fst (NextID clock sf w))) = None
      \/ fst (fst (NextID clock sf w)) = (0, Some ErrOverTimeLimit)).
Proof. apply NextID_fields. Qed.

(** X5. [NextID] reads the clock once and does not sleep, unless the clock
    is not ahead of the generator and the sequence number wraps: then it
    reads the clock twice and sleeps once. *)
Theorem NextID_sleeps_on_wrap_only clock sf w :
  let current := fst (currentElapsedTime clock (Snowflake.startTime sf) w) in
  let w' := snd (NextID clock sf w) in
  if (Snowflake.elapsedTime sf <? current)
     || negb ((Snowflake.sequence sf + 1) mod 256 =? 0)
  then reads w' = S (reads w) /\ slept w' = slept w
  else reads w' = S (S (reads w)) /\ exists d, slept w' = slept w ++ [d].
Proof.
  unfold NextID, currentElapsedTime, sleepTime, timeNow, timeSleep.
  cbn [fst snd]. rewrite sequence_next.
  destruct (Snowflake.elapsedTime sf <? _); [split; reflexivity |].
  destruct ((Snowflake.sequence sf + 1) mod 256 =? 0); cbn [orb negb fst snd].
  - split; [reflexivity |]. eexists. reflexivity.
  - split; reflexivity.
Qed.

(** ** Ticks, sequence numbers and the clock *)

Lemma NextID_tick_clock clock sf w n :
  generator_inv n sf -> 0 <= n < maxCalls ->
  let current := toSnowflakeTime (clock (reads w)) - Snowflake.startTime sf in
  let sf' := snd (fst (NextID clock sf w)) in
  current <= Snowflake.elapsedTime sf'
  /\ (Snowflake.elapsedTime sf < current ->
      Snowflake.elapsedTime sf' = current /\ Snowflake.sequence sf' = 0)
  /\ (current <= Snowflake.elapsedTime sf ->
      Snowflake.elapsedTime sf' <= Snowflake.elapsedTime sf + 1).
Proof.
  intros (Hst & Hel & Hsq & Hm) Hn.
  pose proof (currentElapsedTime_exact clock (Snowflake.startTime sf) w Hst) as Hc.
  unfold NextID. destruct (currentElapsedTime clock _ w) as [cur w1].
  cbn [fst] in Hc. subst cur. rewrite sequence_next.
  unfold maxCalls, maxTick in *.
  destruct (Z.ltb_spec (Snowflake.elapsedTime sf)
              (toSnowflakeTime (clock (reads w)) - Snowflake.startTime sf)).
  - cbn [fst snd Snowflake.elapsedTime Snowflake.sequence]. lia.
  - destruct ((Snowflake.sequence sf + 1) mod 256 =? 0).
    + destruct (sleepTime clock _ w1) as [d w2].
      cbn [fst snd Snowflake.elapsedTime Snowflake.sequence].
      rewrite to_int64_small by (pow2_consts; lia). lia.
    + cbn [fst snd Snowflake.elapsedTime Snowflake.sequence]. lia.
Qed.

Lemma generator_after_succ clock k sf w :
  generator_after clock (S k) sf w
  = snd (fst (NextID clock (generator_after clock k sf w)
                (snd (after_calls clock k sf w)))).
Proof. unfold generator_after. now rewrite after_calls_succ. Qed.

Lemma gen_startTime clock sf w k :
  generator_inv 0 sf -> Z.of_nat k <= maxCalls ->
  Snowflake.startTime (generator_after clock k sf w) = Snowflake.startTime sf.
Proof.
  intros Hinv. induction k as [| k IH]; intros Hk; [reflexivity |].
  rewrite generator_after_succ.
  destruct (NextID_fields clock (generator_after clock k sf w)
              (snd (after_calls clock k sf w))) as [-> _].
  apply IH. lia.
Qed.

(** In one tick, the sequence numbers count the calls. *)
Lemma gen_same_tick clock sf w i j :
  generator_inv 0 sf -> (i <= j)%nat -> Z.of_nat j <= maxCalls ->
  Snowflake.elapsedTime (generator_after clock j sf w)
  = Snowflake.elapsedTime (generator_after clock i sf w) ->
  Snowflake.sequence (generator_after clock j sf w)
  = Snowflake.sequence (generator_after clock i sf w) + (Z.of_nat j - Z.of_nat i).
Proof.
  intros Hinv Hij. induction Hij as [| j Hij IH]; intros Hj He; [lia |].
  pose proof (gen_elapsed_mono clock sf w Hinv i j ltac:(lia) ltac:(lia)) as H1.
  destruct (gen_key_step clock sf w Hinv j ltac:(lia)) as [_ H2].
  destruct (gen_step clock sf w Hinv j ltac:(lia)) as [_ [[H3 _] | [H3 H4]]];
    [lia |].
  rewrite H4, IH by lia. lia.
Qed.

(** X6. No ID of a generator made by [New] has the tick 0; the first ID has
    the sequence number 0 and the tick that the clock reads, counted from
    the start time, or the tick 1 when the clock reads the start time or
    an earlier instant. *)
Theorem first_ID_and_ticks clock addrs st w sf w0 k a :
  supplier_in_range st ->
  New clock addrs st w = ((Some sf, None), w0) ->
  Z.of_nat k < maxCalls ->
  nth_call clock k sf w0 = (a, None) ->
  1 <= elapsedTime a
  /\ (k = 0%nat ->
      SequenceNumber a = 0
      /\ elapsedTime a
         = Z.max 1 (toSnowflakeTime (clock (reads w0)) - Snowflake.startTime sf)).
Proof.
  intros Hr HN Hk Ha.
  apply New_generator in HN as (_ & Hinv & He0 & Hs0); [| assumption].
  pose proof (nth_call_decode clock sf w0 Hinv k a Hk Ha)
    as (_ & _ & -> & -> & _).
  pose proof (NextID_tick_clock clock sf w0 0 Hinv ltac:(unfold maxCalls; lia))
    as (Hc1 & Hc2 & Hc3).
  pose proof (generator_after_succ clock 0 sf w0) as E1.
  change (generator_after clock 0 sf w0) with sf in E1.
  change (snd (after_calls clock 0 sf w0)) with w0 in E1.
  cbv zeta in Hc1, Hc2, Hc3. rewrite <- E1 in Hc1, Hc2, Hc3. clear E1.
  destruct (gen_step clock sf w0 Hinv 0 ltac:(unfold maxCalls; lia)) as [_ Hstep].
  pose proof (gen_inv clock sf w0 Hinv 1 ltac:(unfold maxCalls; simpl; lia))
    as (_ & _ & Hsq1 & _).
  change (generator_after clock 0 sf w0) with sf in Hstep.
  assert (H1 : 1 <= Snowflake.elapsedTime (generator_after clock 1 sf w0)
               /\ Snowflake.sequence (generator_after clock 1 sf w0) = 0) by lia.
  split.
  - pose proof (gen_elapsed_mono clock sf w0 Hinv 1 (S k) ltac:(lia) ltac:(lia)).
    lia.
  - intros ->. split; [apply H1 |]. lia.
Qed.

Lemma first_ID_and_ticks_witness :
  1 <= elapsedTime 16777221 /\ SequenceNumber 16777221 = 0.
Proof.
  destruct (first_ID_and_ticks scenario_clock no_addrs scenario_settings
              fresh_world scenario_generator (mkWorld 1 []) 0%nat 16777221)
    as (H1 & H2).
  - unfold supplier_in_range. simpl. lia.
  - reflexivity.
  - unfold maxCalls. simpl. lia.
  - reflexivity.
  - split; [exact H1 | apply H2; reflexivity].
Defined.

(** X7. Two IDs of a generator made by [New] that have the same tick have
    sequence numbers that differ by the number of calls between them: a
    tick has at most 256 IDs. *)
Theorem same_tick_sequence clock addrs st w sf w0 i j a b :
  supplier_in_range st ->
  New clock addrs st w = ((Some sf, None), w0) ->
  (i <= j)%nat -> Z.of_nat j < maxCalls ->
  nth_call clock i sf w0 = (a, None) ->
  nth_call clock j sf w0 = (b, None) ->
  elapsedTime b = elapsedTime a ->
  SequenceNumber b = SequenceNumber a + (Z.of_nat j - Z.of_nat i)
  /\ Z.of_nat j - Z.of_nat i <= 255.
Proof.
  intros Hr HN Hij Hj Ha Hb.
  apply New_generator in HN as (_ & Hinv & _); [| assumption].
  pose proof (nth_call_decode clock sf w0 Hinv i a ltac:(lia) Ha)
    as (_ & _ & -> & -> & _).
  pose proof (nth_call_decode clock sf w0 Hinv j b ltac:(lia) Hb)
    as (_ & _ & -> & -> & _).
  intros He.
  pose proof (gen_same_tick clock sf w0 (S i) (S j) Hinv ltac:(lia) ltac:(lia) He)
    as Hs.
  pose proof (gen_inv clock sf w0 Hinv (S i) ltac:(lia)) as (_ & _ & Hsi & _).
  pose proof (gen_inv clock sf w0 Hinv (S j) ltac:(lia)) as (_ & _ & Hsj & _).
  lia.
Qed.

Lemma same_tick_sequence_witness :
  SequenceNumber 16973829 = SequenceNumber 16777221 + (3 - 0).
Proof.
  destruct (same_tick_sequence scenario_clock no_addrs scenario_settings
              fresh_world scenario_generator (mkWorld 1 []) 0%nat 3%nat
              16777221 16973829) as [H _].
  - unfold supplier_in_range. simpl. lia.
  - reflexivity.
  - lia.
  - unfold maxCalls. simpl. lia.
  - reflexivity.
  - reflexivity.
  - reflexivity.
  - exact H.
Defined.

(** X8. The tick of a generator made by [New] is never behind the tick that
    the clock read in the call: after the call, it is at least the reading,
    counted from the start time, and it is that reading, with the sequence
    number 0, whenever the reading is ahead of the tick the call found. *)
Theorem tick_not_behind_clock clock addrs st w sf w0 k :
  supplier_in_range st ->
  New clock addrs st w = ((Some sf, None), w0) ->
  Z.of_nat k < maxCalls ->
  let current :=
    toSnowflakeTime (clock (reads (snd (after_calls clock k sf w0))))
    - Snowflake.startTime sf in
  current <= Snowflake.elapsedTime (generator_after clock (S k) sf w0)
  /\ (Snowflake.elapsedTime (generator_after clock k sf w0) < current ->
      Snowflake.elapsedTime (generator_after clock (S k) sf w0) = current
      /\ Snowflake.sequence (generator_after clock (S k) sf w0) = 0)
  /\ (current <= Snowflake.elapsedTime (generator_after clock k sf w0) ->
      Snowflake.elapsedTime (generator_after clock (S k) sf w0)
      <= Snowflake.elapsedTime (generator_after clock k sf w0) + 1).
Proof.
  intros Hr HN Hk.
  apply New_generator in HN as (_ & Hinv & _); [| assumption].
  pose proof (gen_inv clock sf w0 Hinv k ltac:(lia)) as Hk_inv.
  pose proof (NextID_tick_clock clock (generator_after clock k sf w0)
                (snd (after_calls clock k sf w0)) (Z.of_nat k) Hk_inv
                ltac:(lia)) as H.
  rewrite <- generator_after_succ in H.
  rewrite (gen_startTime clock sf w0 k Hinv ltac:(lia)) in H. exact H.
Qed.

Lemma tick_not_behind_clock_witness :
  1 <= Snowflake.elapsedTime
         (generator_after scenario_clock 1 scenario_generator (mkWorld 1 [])).
Proof.
  destruct (tick_not_behind_clock scenario_clock no_addrs scenario_settings
              fresh_world scenario_generator (mkWorld 1 []) 0%nat) as [H _].
  - unfold supplier_in_range. simpl. lia.
  - reflexivity.
  - unfold maxCalls. simpl. lia.
  - exact H.
Defined.

(** X9. When the clock reads an instant that is not before the start
    instant, both in the int64 range of nanoseconds, the current tick is not
    negative; when the start instant is not before the Unix epoch, the
    current tick is the number of whole time units between the two instants,
    or one more: ticks are cut at multiples of the time unit from the Unix
    epoch, not from the start instant. *)
Theorem currentElapsedTime_since_start clock start w :
  - 2 ^ 63 <= start -> start <= clock (reads w) -> clock (reads w) < 2 ^ 63 ->
  let current := fst (currentElapsedTime clock (toSnowflakeTime start) w) in
  0 <= current
  /\ (0 <= start ->
      (clock (reads w) - start) / SnowflakeTimeUnit <= current
      /\ current <= (clock (reads w) - start) / SnowflakeTimeUnit + 1).
Proof.
  intros Hlo Hle Hhi. cbv zeta.
  rewrite currentElapsedTime_exact by apply toSnowflakeTime_bound.
  unfold toSnowflakeTime, UnixNano, SnowflakeTimeUnit.
  rewrite !to_int64_small by lia.
  split; [| intros Hpos]; pow2_consts; Z.to_euclidean_division_equations; lia.
Qed.

Lemma currentElapsedTime_since_start_witness :
  0 <= fst (currentElapsedTime scenario_clock
              (toSnowflakeTime date_2014_09_01) fresh_world).
Proof.
  destruct (currentElapsedTime_since_start scenario_clock date_2014_09_01
              fresh_world) as [H _].
  - unfold date_2014_09_01. pow2_consts. lia.
  - unfold scenario_clock, fixed_clock, SnowflakeTimeUnit. simpl. lia.
  - unfold scenario_clock, fixed_clock, date_2014_09_01, SnowflakeTimeUnit.
    simpl. pow2_consts. lia.
  - exact H.
Defined.

(** ** The decoders on arbitrary 64-bit values *)

(** X10. [ElapsedTime] is the tick of the ID times the time unit, in
    nanoseconds, as long as the tick is at most 922337203685, which holds of
    every ID with the guard bit 0; on a larger tick the product does not fit
    the int64 duration and [ElapsedTime] is negative. *)
Theorem ElapsedTime_exact id :
  0 <= id < 2 ^ 64 ->
  (elapsedTime id <= maxTick ->
   ElapsedTime id = elapsedTime id * SnowflakeTimeUnit /\ 0 <= ElapsedTime id)
  /\ (maxTick < elapsedTime id ->
      ElapsedTime id = elapsedTime id * SnowflakeTimeUnit - 2 ^ 64
      /\ ElapsedTime id < 0)
  /\ (id < 2 ^ 63 -> elapsedTime id < 2 ^ 39 <= maxTick).
Proof.
  intros Hid. unfold ElapsedTime. rewrite elapsedTime_div.
  assert (Ht : 0 <= id / 2 ^ 24 < 2 ^ 40).
  { change (2 ^ 40) with 1099511627776. pow2_consts.
    Z.to_euclidean_division_equations. lia. }
  change (2 ^ 40) with 1099511627776 in Ht.
  unfold SnowflakeTimeUnit, maxTick.
  rewrite to_uint64_small by (pow2_consts; lia).
  split; [| split].
  - intros Hle. rewrite to_int64_small by (pow2_consts; lia). lia.
  - intros Hgt. unfold to_int64.
    replace (id / 2 ^ 24 * 10000000 + 2 ^ 63)
      with (id / 2 ^ 24 * 10000000 - 2 ^ 63 + 1 * 2 ^ 64) by lia.
    rewrite Z.mod_add by lia.
    rewrite Z.mod_small by (pow2_consts; lia). pow2_consts. lia.
  - intros Hlt. pow2_consts. Z.to_euclidean_division_equations. lia.
Qed.

Lemma ElapsedTime_exact_witness :
  ElapsedTime 16777221 = elapsedTime 16777221 * SnowflakeTimeUnit
  /\ 0 <= ElapsedTime 16777221.
Proof.
  destruct (ElapsedTime_exact 16777221) as [H _].
  - pow2_consts. lia.
  - apply H. unfold maxTick. vm_compute. discriminate.
Defined.

(** X11. The time that the decoders report carries the guard bit: on every
    64-bit value it is the 39-bit tick plus 2^39 times the bit 63, so it is
    2^39 or more exactly when the guard bit is 1; the sequence number and the
    machine identifier do not depend on the guard bit. *)
Theorem time_carries_guard_bit v :
  0 <= v < 2 ^ 64 ->
  elapsedTime v
  = Z.shiftr v 63 * 2 ^ 39 + elapsedTime (Z.land v (Z.ones 63))
  /\ (2 ^ 39 <= elapsedTime v <-> Z.shiftr v 63 = 1)
  /\ SequenceNumber (Z.land v (Z.ones 63)) = SequenceNumber v
  /\ MachineID (Z.land v (Z.ones 63)) = MachineID v.
Proof.
  intros Hv. rewrite Z.land_ones by lia.
  rewrite !elapsedTime_div, !SequenceNumber_div, !MachineID_mod.
  rewrite Z.shiftr_div_pow2 by lia.
  pow2_consts. repeat split; Z.to_euclidean_division_equations; lia.
Qed.

Lemma time_carries_guard_bit_witness :
  2 ^ 39 <= elapsedTime (2 ^ 63 + 16777221)
  <-> Z.shiftr (2 ^ 63 + 16777221) 63 = 1.
Proof.
  destruct (time_carries_guard_bit (2 ^ 63 + 16777221)) as (_ & H & _).
  - pow2_consts. lia.
  - exact H.
Defined.

(** ** The private address and the validation of the machine identifier *)

Lemma privateIPv4_loop_cons ip mask rest :
  (IsLoopback ip = true -> isPrivateIPv4 (To4 ip) = false)
  /\ privateIPv4_loop (IPNet ip mask :: rest)
     = if isPrivateIPv4 (To4 ip) then (To4 ip, None) else privateIPv4_loop rest.
Proof.
  assert (H : IsLoopback ip = true -> isPrivateIPv4 (To4 ip) = false).
  { unfold IsLoopback. destruct (To4 ip) as [ip4 |]; [| reflexivity].
    intros E. apply Z.eqb_eq in E. unfold isPrivateIPv4. rewrite E.
    reflexivity. }
  split; [exact H |].
  cbn -[IsLoopback To4 isPrivateIPv4].
  destruct (IsLoopback ip); [| reflexivity].
  now rewrite H.
Qed.

(** X12. A loopback address is never a private address: where
    [IsLoopback] holds, [isPrivateIPv4] fails on the 4-byte form, so the
    loop of [privateIPv4] picks an address by that test alone. *)
Theorem loopback_never_private ip mask rest :
  (IsLoopback ip = true -> isPrivateIPv4 (To4 ip) = false)
  /\ privateIPv4_loop (IPNet ip mask :: rest)
     = if isPrivateIPv4 (To4 ip) then (To4 ip, None) else privateIPv4_loop rest.
Proof. apply privateIPv4_loop_cons. Qed.

Lemma loopback_never_private_witness :
  isPrivateIPv4 (To4 [x7f; x00; x00; x01]) = false.
Proof.
  apply (loopback_never_private [x7f; x00; x00; x01] [] []). reflexivity.
Defined.

Lemma privateIPv4_loop_result addrs :
  match privateIPv4_loop addrs with
  | (Some ip4, None) =>
      exists ip mask, In (IPNet ip mask) addrs /\ To4 ip = Some ip4
                      /\ isPrivateIPv4 (Some ip4) = true
  | (None, Some e) => e = ErrNoPrivateAddress
  | _ => False
  end.
Proof.
  induction addrs as [| [ip mask | network text] rest IH].
  - reflexivity.
  - destruct (privateIPv4_loop_cons ip mask rest) as [_ ->].
    destruct (isPrivateIPv4 (To4 ip)) eqn:Ep.
    + destruct (To4 ip) as [ip4 |] eqn:E4; [| discriminate].
      exists ip, mask. split; [left; reflexivity |]. now split.
    + destruct (privateIPv4_loop rest) as [[ip4 |] [e |]]; try assumption.
      destruct IH as (ip' & mask' & Hin & H). exists ip', mask'.
      split; [right; exact Hin | exact H].
  - cbn [privateIPv4_loop].
    destruct (privateIPv4_loop rest) as [[ip4 |] [e |]]; try assumption.
    destruct IH as (ip' & mask' & Hin & H). exists ip', mask'.
    split; [right; exact Hin | exact H].
Qed.

Lemma lower16_low_bits ip4 : lower16 ip4 = ipv4_number ip4 mod 2 ^ 16.
Proof.
  unfold lower16, ipv4_number, ipv4.
  pose proof (at_index_range ip4 2). pose proof (at_index_range ip4 3).
  pow2_consts. Z.to_euclidean_division_equations. lia.
Qed.

(** X13. [privateIPv4] returns an address or an error, never both and never
    neither. The address is the 4-byte form of an enumerated IP network
    address, it passes [isPrivateIPv4], its first octet is not 127, and
    [lower16BitPrivateIP] returns the low 16 bits of it as a 32-bit number.
    An error is returned by [lower16BitPrivateIP] too, with the value 0. *)
Theorem privateIPv4_result (addrs : InterfaceAddrs) :
  match privateIPv4 addrs with
  | (Some ip4, None) =>
      (exists ip mask, In (IPNet ip mask) (fst (addrs tt)) /\ To4 ip = Some ip4)
      /\ length ip4 = 4%nat
      /\ isPrivateIPv4 (Some ip4) = true
      /\ at_index ip4 0 <> 127
      /\ lower16BitPrivateIP addrs = (ipv4_number ip4 mod 2 ^ 16, None)
  | (None, Some e) =>
      lower16BitPrivateIP addrs = (0, Some e)
      /\ (snd (addrs tt) = Some e
          \/ (snd (addrs tt) = None /\ e = ErrNoPrivateAddress))
  | _ => False
  end.
Proof.
  pose proof (lower16BitPrivateIP_first addrs) as Hl.
  unfold lower16BitPrivateIP in *. unfold privateIPv4 in *.
  destruct (addrs tt) as [l [e |]]; cbn [fst snd] in *.
  - split; [reflexivity | left; reflexivity].
  - pose proof (privateIPv4_loop_result l) as Hres.
    pose proof (privateIPv4_loop_first l) as Hfirst.
    destruct (privateIPv4_loop l) as [[ip4 |] [e |]]; try contradiction.
    + destruct Hres as (ip & mask & Hin & E4 & Hp).
      split; [exists ip, mask; now split |].
      split; [eapply To4_length, E4 |].
      split; [exact Hp |]. split.
      * intros E127. unfold isPrivateIPv4 in Hp. rewrite E127 in Hp.
        discriminate Hp.
      * destruct (first_qualifying l) as [ip4' |]; [| discriminate].
        injection Hfirst as <-. rewrite Hl. now rewrite lower16_low_bits.
    + split; [reflexivity | right; split; [reflexivity | exact Hres]].
Qed.

(** X14. Past the check of the start time, and with a machine identifier
    resolved without error, [New] fails with [ErrInvalidMachineID] exactly
    when the settings have a [CheckMachineID] and it rejects the identifier;
    otherwise [New] returns a generator with that identifier, the tick 0
    and the sequence number 255, which counts from the start time of the
    settings or, when that is zero, from 2014-09-01. *)
Theorem New_CheckMachineID clock addrs st w v :
  After (Settings.StartTime st) (clock (reads w)) = false ->
  resolve_machineID addrs st = (v, None) ->
  (snd (fst (New clock addrs st w)) = Some ErrInvalidMachineID
   <-> exists check, Settings.CheckMachineID st = Some check /\ check v = false)
  /\ (fst (New clock addrs st w) = (None, Some ErrInvalidMachineID)
      \/ fst (New clock addrs st w)
         = (Some (Snowflake.mk
                    (toSnowflakeTime
                       (if IsZero (Settings.StartTime st) then date_2014_09_01
                        else Settings.StartTime st))
                    0 255 v), None)).
Proof.
  intros HA Hres. rewrite (New_resolve clock addrs st w HA), Hres.
  cbn [fst snd].
  destruct (Settings.CheckMachineID st) as [check |].
  - destruct (check v) eqn:Ec; cbn [negb fst snd].
    + split; [| right; now destruct (IsZero _)].
      split; [discriminate |]. intros (c & [= <-] & Hc). congruence.
    + split; [| left; reflexivity].
      split; [| reflexivity]. intros _. now exists check.
  - split; [| right; now destruct (IsZero _)].
    split; [discriminate |]. intros (c & Hc & _). discriminate.
Qed.

Lemma New_CheckMachineID_witness :
  snd (fst (New scenario_clock no_addrs
              (Settings.mk zeroTime (Some (fun _ => (5, None)))
                 (Some (fun id => id =? 7)))
              fresh_world))
  = Some ErrInvalidMachineID.
Proof.
  apply (New_CheckMachineID scenario_clock no_addrs
           (Settings.mk zeroTime (Some (fun _ => (5, None)))
              (Some (fun id => id =? 7)))
           fresh_world 5).
  - reflexivity.
  - reflexivity.
  - exists (fun id => id =? 7). split; reflexivity.
Defined.

(** ** A clock that stands still *)

(** When the clock is not ahead of the generator, a call moves the pair
    (tick, sequence) to the next one. *)
Lemma NextID_next_key clock sf w n :
  generator_inv n sf -> 0 <= n < maxCalls ->
  toSnowflakeTime (clock (reads w)) - Snowflake.startTime sf
  <= Snowflake.elapsedTime sf ->
  order_key (snd (fst (NextID clock sf w))) = order_key sf + 1.
Proof.
  intros (Hst & Hel & Hsq & Hm) Hn Hle.
  pose proof (currentElapsedTime_exact clock (Snowflake.startTime sf) w Hst) as Hc.
  unfold NextID. destruct (currentElapsedTime clock _ w) as [cur w1].
  cbn [fst] in Hc. subst cur. rewrite sequence_next.
  unfold maxCalls, maxTick, order_key in *.
  destruct (Z.ltb_spec (Snowflake.elapsedTime sf)
              (toSnowflakeTime (clock (reads w)) - Snowflake.startTime sf));
    [lia |].
  destruct (Z.eqb_spec ((Snowflake.sequence sf + 1) mod 256) 0) as [Hz | Hnz].
  - destruct (sleepTime clock _ w1) as [d w2].
    cbn [fst snd Snowflake.elapsedTime Snowflake.sequence].
    rewrite to_int64_small by (pow2_consts; lia).
    revert Hz. Z.to_euclidean_division_equations. lia.
  - cbn [fst snd Snowflake.elapsedTime Snowflake.sequence].
    revert Hnz. Z.to_euclidean_division_equations. lia.
Qed.

Lemma gen_first clock sf w :
  generator_inv 0 sf ->
  Snowflake.elapsedTime sf = 0 -> Snowflake.sequence sf = 255 ->
  order_key (generator_after clock 1 sf w)
  = Z.max 1 (toSnowflakeTime (clock (reads w)) - Snowflake.startTime sf) * 256.
Proof.
  intros Hinv He Hs.
  pose proof (NextID_tick_clock clock sf w 0 Hinv ltac:(unfold maxCalls; lia))
    as (Hc1 & Hc2 & Hc3).
  pose proof (generator_after_succ clock 0 sf w) as E1.
  change (generator_after clock 0 sf w) with sf in E1.
  change (snd (after_calls clock 0 sf w)) with w in E1.
  cbv zeta in Hc1, Hc2, Hc3. rewrite <- E1 in Hc1, Hc2, Hc3. clear E1.
  destruct (gen_step clock sf w Hinv 0 ltac:(unfold maxCalls; lia)) as [_ Hstep].
  pose proof (gen_inv clock sf w Hinv 1 ltac:(unfold maxCalls; simpl; lia))
    as (_ & _ & Hsq1 & _).
  change (generator_after clock 0 sf w) with sf in Hstep.
  unfold order_key. lia.
Qed.

Lemma gen_stalled clock sf w t k :
  generator_inv 0 sf ->
  Snowflake.elapsedTime sf = 0 -> Snowflake.sequence sf = 255 ->
  (forall n, clock n = t) ->
  Z.of_nat (S k) <= maxCalls ->
  order_key (generator_after clock (S k) sf w)
  = Z.max 1 (toSnowflakeTime t - Snowflake.startTime sf) * 256 + Z.of_nat k.
Proof.
  intros Hinv He Hs Hclock. induction k as [| k IH]; intros Hk.
  - rewrite gen_first, Hclock by assumption. simpl. lia.
  - rewrite generator_after_succ.
    pose proof (gen_inv clock sf w Hinv (S k) ltac:(lia)) as HinvS.
    rewrite (NextID_next_key clock _ _ (Z.of_nat (S k))); [rewrite IH; lia | exact HinvS | lia |].
    rewrite Hclock, (gen_startTime clock sf w (S k) Hinv ltac:(lia)).
    specialize (IH ltac:(lia)). destruct HinvS as (_ & _ & Hsq & _).
    unfold order_key in IH. lia.
Qed.

(** X15. While the clock stands still, a generator made by [New] goes on
    returning IDs, 256 to a tick: the call number [k] leaves the tick at the
    first tick plus [k / 256] and the sequence number at [k mod 256], and an
    ID it returns decodes to them. The first tick is the reading of the
    clock, counted from the start time, or 1 if that is less. *)
Theorem stalled_clock_IDs clock t addrs st w sf w0 k :
  supplier_in_range st ->
  New clock addrs st w = ((Some sf, None), w0) ->
  (forall n, clock n = t) ->
  Z.of_nat k < maxCalls ->
  let first := Z.max 1 (toSnowflakeTime t - Snowflake.startTime sf) in
  Snowflake.elapsedTime (generator_after clock (S k) sf w0)
  = first + Z.of_nat k / 256
  /\ Snowflake.sequence (generator_after clock (S k) sf w0) = Z.of_nat k mod 256
  /\ (forall a, nth_call clock k sf w0 = (a, None) ->
        elapsedTime a = first + Z.of_nat k / 256
        /\ SequenceNumber a = Z.of_nat k mod 256)
  /\ (snd (nth_call clock k sf w0) = None <-> first + Z.of_nat k / 256 < 2 ^ 39).
Proof.
  intros Hr HN Hclock Hk first.
  apply New_generator in HN as (_ & Hinv & He0 & Hs0); [| assumption].
  pose proof (gen_stalled clock sf w0 t k Hinv He0 Hs0 Hclock ltac:(lia)) as Hkey.
  fold first in Hkey.
  pose proof (gen_inv clock sf w0 Hinv (S k) ltac:(lia)) as (_ & _ & Hsq & _).
  unfold order_key in Hkey.
  assert (Hes : Snowflake.elapsedTime (generator_after clock (S k) sf w0)
                = first + Z.of_nat k / 256
                /\ Snowflake.sequence (generator_after clock (S k) sf w0)
                   = Z.of_nat k mod 256)
    by (Z.to_euclidean_division_equations; lia).
  destruct Hes as [Hel Hse].
  split; [exact Hel |]. split; [exact Hse |]. split.
  - intros a Ha.
    pose proof (nth_call_decode clock sf w0 Hinv k a Hk Ha)
      as (_ & _ & -> & -> & _).
    now split.
  - rewrite nth_call_value by assumption. rewrite Hel.
    destruct (Z.leb_spec (2 ^ 39) (first + Z.of_nat k / 256)); cbn [snd];
      split; intros; (reflexivity || discriminate || lia).
Qed.

Lemma stalled_clock_IDs_witness :
  Snowflake.elapsedTime
    (generator_after scenario_clock 514 scenario_generator (mkWorld 1 []))
  = Z.max 1 (toSnowflakeTime (date_2014_09_01 + SnowflakeTimeUnit) - 140952960000)
    + 513 / 256
  /\ Snowflake.sequence
       (generator_after scenario_clock 514 scenario_generator (mkWorld 1 []))
     = 513 mod 256.
Proof.
  destruct (stalled_clock_IDs scenario_clock
              (date_2014_09_01 + SnowflakeTimeUnit) no_addrs scenario_settings
              fresh_world scenario_generator (mkWorld 1 []) 513%nat)
    as (H1 & H2 & _).
  - unfold supplier_in_range. simpl. lia.
  - reflexivity.
  - reflexivity.
  - unfold maxCalls. simpl. lia.
  - split; [exact H1 | exact H2].
Defined.
